(** * CredResolve: the balance ledger and debt-simplification engine

    A shallow embedding of [server/services/balance_service.py],
    [server/services/expense_service.py] and
    [server/services/settlement_service.py], and the properties of the
    ledger that the design document states about them.

    Conventions of the embedding:
    - Python numbers (JSON ints and floats, SQLite REAL) are modelled as exact
      rationals [Q]; [round(x, 2)] is rounding to the nearest hundredth, ties
      to even.  Binary floating-point drift is outside the model.
    - The SQLite database is an explicit value [DB] that every service method
      receives and returns; a table is the list of its rows in insertion
      order, which is the order a [SELECT] without [ORDER BY] scans them in.
    - A Python exception is a value of type [error]; a method that can raise
      returns the database it leaves behind together with its outcome, since
      what was committed before the exception stays committed.
    - [uuid4()] and [CURRENT_TIMESTAMP] are inputs of the methods that use
      them. *)

From Stdlib Require Import List String Bool ZArith QArith Qround Qabs Qminmax.
From Stdlib Require Import Lia Lqa Permutation Sorted.
Import ListNotations.

Local Open Scope Q_scope.

(** ** Numbers *)

Module Money.

(** [a < b] on numbers, as a boolean. *)
Definition Qltb (a b : Q) : bool := negb (Qle_bool b a).

(** The integer nearest to [x], ties going to the even neighbour. *)
Definition round_half_even (x : Q) : Z :=
  let f := Qfloor x in
  match Qcompare (x - inject_Z f) (1 # 2) with
  | Lt => f
  | Gt => (f + 1)%Z
  | Eq => if Z.even f then f else (f + 1)%Z
  end.

(** Python's [round(x, 2)]. *)
Definition round2 (x : Q) : Q := Qmake (round_half_even (x * 100)) 100.

(** The tolerance constant [0.01] of the services. *)
Definition cent : Q := 1 # 100.

(** A whole number of cents. *)
Definition whole_cents (x : Q) : Prop := exists z : Z, x == z # 100.

(** [len(l)], as a number. *)
Definition count {A : Type} (l : list A) : Q := inject_Z (Z.of_nat (List.length l)).

(** Python's [sum(...)]: start from 0, add from the left. *)
Definition py_sum (l : list Q) : Q := fold_left Qplus l 0.

End Money.
Import Money.

Infix "<?" := Qltb (at level 70, no associativity) : Q_scope.
Infix "<=?" := Qle_bool (at level 70, no associativity) : Q_scope.

(** ** Tables

    The schema is set up by [db.py], which is not among the sources; the
    columns are those that the SQL statements of the services name.  The
    database stamps an expense with [created_at] when the row is inserted.
    [DELETE FROM expenses] is modelled without a cascade: the splits of a
    deleted expense stay behind, out of reach of every query by expense. *)

Module Store.

(** A row of [balances]. *)
Record balance_row := mk_balance_row {
  group_id : string;
  from_user_id : string;
  to_user_id : string;
  amount : Q
}.

(** A row of [expenses]. *)
Record expense_row := mk_expense_row {
  e_id : string;
  e_group_id : string;
  e_description : string;
  e_total_amount : Q;
  e_paid_by : string;
  e_split_type : string;
  e_created_at : nat
}.

(** A row of [expense_splits]; [percentage] is NULL unless the expense is a
    PERCENTAGE one. *)
Record split_row := mk_split_row {
  sp_expense_id : string;
  sp_user_id : string;
  sp_amount : Q;
  sp_percentage : option Q
}.

(** A row of [settlements]. *)
Record settlement_row := mk_settlement_row {
  st_id : string;
  st_group_id : string;
  st_from_user_id : string;
  st_to_user_id : string;
  st_amount : Q
}.

(** The database: the ledger tables and the two tables of the group
    collaborator that the ledger reads. *)
Record DB := mk_DB {
  balances : list balance_row;
  expenses : list expense_row;
  expense_splits : list split_row;
  settlements : list settlement_row;
  groups : list string;
  group_members : list (string * string)
}.

Definition with_balances (db : DB) (bs : list balance_row) : DB :=
  mk_DB bs (expenses db) (expense_splits db) (settlements db)
        (groups db) (group_members db).

Definition with_expenses (db : DB) (es : list expense_row) : DB :=
  mk_DB (balances db) es (expense_splits db) (settlements db)
        (groups db) (group_members db).

Definition with_expense_splits (db : DB) (ss : list split_row) : DB :=
  mk_DB (balances db) (expenses db) ss (settlements db)
        (groups db) (group_members db).

Definition with_settlements (db : DB) (ss : list settlement_row) : DB :=
  mk_DB (balances db) (expenses db) (expense_splits db) ss
        (groups db) (group_members db).

Definition with_groups (db : DB) (gs : list string)
           (ms : list (string * string)) : DB :=
  mk_DB (balances db) (expenses db) (expense_splits db) (settlements db)
        gs ms.

(** A database whose ledger tables are empty. *)
Definition empty_ledger (gs : list string) (ms : list (string * string)) : DB :=
  mk_DB [] [] [] [] gs ms.

End Store.
Import Store.

(** Python exceptions raised by the services.  The [ValueError]s are told
    apart by their message; the names are those of the design document. *)
Inductive error : Type :=
| GroupNotFound            (* 'Group not found' *)
| PayerNotAMember          (* 'Payer must be a group member' *)
| NonMemberParticipant     (* 'Users not in group: ...' *)
| ValidationFailed         (* 'Validation failed: ...' *)
| UnknownSplitType         (* 'Unknown split type: ...' *)
| NotAMember               (* 'Both users must be group members' *)
| NonPositiveAmount        (* 'Settlement amount must be positive' *)
| PayerNotInDebt           (* '... does not owe money in this group' *)
| RecipientNotOwed         (* '... is not owed money in this group' *)
| SettlementExceedsBalance (* 'Settlement amount (...) exceeds maximum allowed (...)' *)
| KeyError                 (* a split dict without the key that is read *)
| ZeroDivisionError.       (* an EQUAL split among no participants *)

(** What a method that can raise hands back. *)
Inductive result (A : Type) : Type :=
| Ok (a : A)
| Raise (e : error).
Arguments Ok {A} a.
Arguments Raise {A} e.

(** ** group_service.py, as far as the ledger reads it *)

Module GroupService.

(** [get_group]: [None] when the group does not exist, else its members. *)
Definition get_group (db : DB) (g : string) : option (list string) :=
  if existsb (String.eqb g) (groups db)
  then Some (map snd (filter (fun m => String.eqb (fst m) g) (group_members db)))
  else None.

Definition is_member (db : DB) (g u : string) : bool :=
  existsb (fun m => String.eqb (fst m) g && String.eqb (snd m) u)
          (group_members db).

(** [validate_group_members]: the users of [user_ids] that are not members. *)
Definition validate_group_members (db : DB) (g : string) (user_ids : list string)
  : bool * list string :=
  match get_group db g with
  | None => (false, user_ids)
  | Some _ =>
      let non_members := filter (fun u => negb (is_member db g u)) user_ids in
      (match non_members with [] => true | _ => false end, non_members)
  end.

End GroupService.

(** ** balance_service.py *)

Module BalanceService.

(** The dict that [map_row_to_balance] builds. *)
Record balance := mk_balance {
  groupId : string;
  fromUserId : string;
  toUserId : string;
  b_amount : Q
}.

Definition map_row_to_balance (row : balance_row) : balance :=
  mk_balance (group_id row) (from_user_id row) (to_user_id row)
             (round2 (amount row)).

(** The [WHERE group_id = ? AND from_user_id = ? AND to_user_id = ?] test. *)
Definition key_match (g f t : string) (r : balance_row) : bool :=
  String.eqb (group_id r) g && String.eqb (from_user_id r) f
  && String.eqb (to_user_id r) t.

Definition set_balance (db : DB) (g f t : string) (amt : Q) : DB :=
  let kept := filter (fun r => negb (key_match g f t r)) (balances db) in
  with_balances db
    (if 0 <? amt then kept ++ [mk_balance_row g f t amt] else kept).

Definition get_balance_between_users (db : DB) (g f t : string) : Q :=
  match find (key_match g f t) (balances db) with
  | Some row => amount row
  | None => 0
  end.

Definition update_balance (db : DB) (g f t : string) (amt : Q) : DB :=
  let reverse := get_balance_between_users db g t f in
  if 0 <? reverse then
    if amt <? reverse then
      let new_amount := reverse - amt in
      set_balance db g t f new_amount
    else if reverse <? amt then
      let db1 := set_balance db g t f 0 in
      let new_amount := amt - reverse in
      set_balance db1 g f t new_amount
    else
      set_balance db g t f 0
  else
    let current := get_balance_between_users db g f t in
    let new_amount := current + amt in
    set_balance db g f t new_amount.

Definition get_group_balances (db : DB) (g : string) : list balance :=
  map map_row_to_balance
      (filter (fun r => String.eqb (group_id r) g && (0 <? amount r))
              (balances db)).

Definition clear_group_balances (db : DB) (g : string) : DB :=
  with_balances db
    (filter (fun r => negb (String.eqb (group_id r) g)) (balances db)).

(** *** get_simplified_balances *)

(** The [net] dict: keys in insertion order. *)
Definition dict_get (d : list (string * Q)) (k : string) (default : Q) : Q :=
  match find (fun p => String.eqb (fst p) k) d with
  | Some p => snd p
  | None => default
  end.

Fixpoint dict_set (d : list (string * Q)) (k : string) (v : Q)
  : list (string * Q) :=
  match d with
  | [] => [(k, v)]
  | p :: rest =>
      if String.eqb (fst p) k then (k, v) :: rest
      else p :: dict_set rest k v
  end.

(** The body of [for b in balances]. *)
Definition net_step (net : list (string * Q)) (b : balance) : list (string * Q) :=
  let from_user := fromUserId b in
  let to_user := toUserId b in
  let amount := b_amount b in
  let net1 := dict_set net from_user (dict_get net from_user 0 - amount) in
  dict_set net1 to_user (dict_get net1 to_user 0 + amount).

Definition build_net (bs : list balance) : list (string * Q) :=
  fold_left net_step bs [].

(** [list.sort(key=lambda x: x[1], reverse=True)]: descending and stable. *)
Fixpoint insert_desc (x : string * Q) (l : list (string * Q))
  : list (string * Q) :=
  match l with
  | [] => [x]
  | y :: rest =>
      if snd y <=? snd x then x :: y :: rest else y :: insert_desc x rest
  end.

Definition sort_desc (l : list (string * Q)) : list (string * Q) :=
  fold_right insert_desc [] l.

(** The [while i < len(debtors) and j < len(creditors)] loop.  [ds] is
    [debtors[i:]] and [cs] is [creditors[j:]], their heads carrying the
    amounts the loop wrote back.  [fuel] bounds the iterations. *)
Fixpoint settle_loop (g : string) (fuel : nat) (ds cs : list (string * Q))
  : option (list balance) :=
  match ds, cs with
  | (debtor, debt) :: ds', (creditor, credit) :: cs' =>
      match fuel with
      | O => None
      | S fuel' =>
          let amount := Qmin debt credit in
          let entry := mk_balance g debtor creditor (round2 amount) in
          let debt' := debt - amount in
          let credit' := credit - amount in
          let ds1 := if debt' <? cent then ds' else (debtor, debt') :: ds' in
          let cs1 := if credit' <? cent then cs' else (creditor, credit') :: cs' in
          option_map (cons entry) (settle_loop g fuel' ds1 cs1)
      end
  | _, _ => Some []
  end.

Definition debtors_of (net : list (string * Q)) : list (string * Q) :=
  map (fun p => (fst p, - snd p)) (filter (fun p => snd p <? - cent) net).

Definition creditors_of (net : list (string * Q)) : list (string * Q) :=
  filter (fun p => cent <? snd p) net.

(** [None] would be a loop that does not stop within
    [len(debtors) + len(creditors)] iterations. *)
Definition get_simplified_balances (db : DB) (g : string)
  : option (list balance) :=
  let balances := get_group_balances db g in
  let net := build_net balances in
  let debtors := sort_desc (debtors_of net) in
  let creditors := sort_desc (creditors_of net) in
  settle_loop g (List.length debtors + List.length creditors) debtors creditors.

(** *** apply_smart_settlement *)

(** One [for ... in ...] loop of [apply_smart_settlement]; [break] leaves
    the loop with the database as it is. *)
Fixpoint reduce_in_order (db : DB) (g : string) (items : list balance)
         (remaining_amount : Q) : DB :=
  match items with
  | [] => db
  | item :: rest =>
      if remaining_amount <=? 0 then db
      else
        let reduction := Qmin (b_amount item) remaining_amount in
        let new_balance := b_amount item - reduction in
        let db1 := set_balance db g (fromUserId item) (toUserId item) new_balance in
        reduce_in_order db1 g rest (remaining_amount - reduction)
  end.

Definition apply_smart_settlement (db : DB) (g payer_id recipient_id : string)
           (amount : Q) : DB :=
  let all_balances := get_group_balances db g in
  let payer_debts :=
    filter (fun b => String.eqb (fromUserId b) payer_id) all_balances in
  let total_payer_debt := py_sum (map b_amount payer_debts) in
  let recipient_credits :=
    filter (fun b => String.eqb (toUserId b) recipient_id) all_balances in
  let total_recipient_credit := py_sum (map b_amount recipient_credits) in
  let db1 :=
    if 0 <? total_payer_debt
    then reduce_in_order db g payer_debts amount else db in
  if 0 <? total_recipient_credit
  then reduce_in_order db1 g recipient_credits amount else db1.

End BalanceService.

(** ** expense_service.py *)

Module ExpenseService.
Import BalanceService.

Definition SPLIT_TYPE_EQUAL : string := "EQUAL".
Definition SPLIT_TYPE_EXACT : string := "EXACT".
Definition SPLIT_TYPE_PERCENTAGE : string := "PERCENTAGE".

(** A split dict as the caller sends it or as [get_expense] rebuilds it;
    [None] is a key that is absent (or NULL). *)
Record split := mk_split {
  userId : string;
  s_amount : option Q;
  s_percentage : option Q
}.

(** An element of the list that [calculate_splits] returns. *)
Record calculated_split := mk_calculated_split {
  c_userId : string;
  c_amount : Q
}.

(** The dict that [map_row_to_expense] builds. *)
Record expense := mk_expense {
  id : string;
  x_groupId : string;
  description : string;
  totalAmount : Q;
  paidBy : string;
  splitType : string;
  splits : list split;
  createdAt : nat
}.

(** The messages that [validate_expense] collects. *)
Inductive validation_error : Type :=
| TotalNotPositive            (* 'Total amount must be positive' *)
| EmptySplit                  (* 'At least one participant required' *)
| SplitSumMismatch            (* 'Sum of exact amounts (...) must equal total amount (...)' *)
| PercentageSumMismatch       (* 'Sum of percentages (...) must equal 100%' *)
| NegativeAmount (i : nat)    (* 'Split i: amount cannot be negative' *)
| NegativePercentage (i : nat). (* 'Split i: percentage cannot be negative' *)

Record validation := mk_validation {
  valid : bool;
  errors : list validation_error
}.

(** [s.get('amount', 0)] and [s.get('percentage', 0)]. *)
Definition get_amount (s : split) : Q :=
  match s_amount s with Some a => a | None => 0 end.
Definition get_percentage (s : split) : Q :=
  match s_percentage s with Some p => p | None => 0 end.

(** The [for i, split in enumerate(splits)] loop, from index [i] on. *)
Fixpoint share_errors (split_type : string) (i : nat) (l : list split)
  : list validation_error :=
  match l with
  | [] => []
  | s :: rest =>
      (if String.eqb split_type SPLIT_TYPE_EXACT && (get_amount s <? 0)
       then [NegativeAmount i] else [])
      ++ (if String.eqb split_type SPLIT_TYPE_PERCENTAGE && (get_percentage s <? 0)
          then [NegativePercentage i] else [])
      ++ share_errors split_type (S i) rest
  end.

Definition validate_expense (total_amount : Q) (split_type : string)
           (splits : list split) : validation :=
  let errors :=
    (if total_amount <=? 0 then [TotalNotPositive] else [])
    ++ (match splits with [] => [EmptySplit] | _ => [] end)
    ++ (if String.eqb split_type SPLIT_TYPE_EXACT then
          let total := py_sum (map get_amount splits) in
          if cent <? Qabs (total - total_amount) then [SplitSumMismatch] else []
        else [])
    ++ (if String.eqb split_type SPLIT_TYPE_PERCENTAGE then
          let total := py_sum (map get_percentage splits) in
          if cent <? Qabs (total - 100) then [PercentageSumMismatch] else []
        else [])
    ++ share_errors split_type 0 splits in
  mk_validation (match errors with [] => true | _ => false end) errors.

(** A list comprehension whose body can raise: the first exception wins. *)
Fixpoint comprehension {A B : Type} (f : A -> result B) (l : list A)
  : result (list B) :=
  match l with
  | [] => Ok []
  | x :: rest =>
      match f x with
      | Raise e => Raise e
      | Ok y =>
          match comprehension f rest with
          | Raise e => Raise e
          | Ok ys => Ok (y :: ys)
          end
      end
  end.

Definition calculate_splits (total_amount : Q) (split_type : string)
           (splits : list split) : result (list calculated_split) :=
  if String.eqb split_type SPLIT_TYPE_EQUAL then
    match splits with
    | [] => Raise ZeroDivisionError
    | _ =>
        let amount_per_person :=
          total_amount / inject_Z (Z.of_nat (List.length splits)) in
        Ok (map (fun s => mk_calculated_split (userId s) (round2 amount_per_person))
                splits)
    end
  else if String.eqb split_type SPLIT_TYPE_EXACT then
    comprehension
      (fun s => match s_amount s with
                | Some a => Ok (mk_calculated_split (userId s) a)
                | None => Raise KeyError
                end) splits
  else if String.eqb split_type SPLIT_TYPE_PERCENTAGE then
    comprehension
      (fun s => match s_percentage s with
                | Some p =>
                    Ok (mk_calculated_split (userId s)
                          (round2 ((p / 100) * total_amount)))
                | None => Raise KeyError
                end) splits
  else Raise UnknownSplitType.

(** *** The methods of ExpenseService *)

(** The argument of [add_expense]. *)
Record expense_data := mk_expense_data {
  d_groupId : string;
  d_description : string;
  d_totalAmount : Q;
  d_paidBy : string;
  d_splitType : string;
  d_splits : list split
}.

Record add_expense_result := mk_add_expense_result {
  r_expense : option expense;
  r_balances : list balance
}.

Definition splits_of (db : DB) (expense_id : string) : list split :=
  map (fun s => mk_split (sp_user_id s) (Some (sp_amount s)) (sp_percentage s))
      (filter (fun s => String.eqb (sp_expense_id s) expense_id)
              (expense_splits db)).

Definition map_row_to_expense (row : expense_row) (splits : list split)
  : expense :=
  mk_expense (e_id row) (e_group_id row) (e_description row)
             (e_total_amount row) (e_paid_by row) (e_split_type row)
             splits (e_created_at row).

Definition get_expense (db : DB) (expense_id : string) : option expense :=
  match find (fun r => String.eqb (e_id r) expense_id) (expenses db) with
  | None => None
  | Some row => Some (map_row_to_expense row (splits_of db (e_id row)))
  end.

(** [ORDER BY created_at DESC]; rows created at the same instant keep
    their insertion order. *)
Fixpoint insert_newest_first (x : expense_row) (l : list expense_row)
  : list expense_row :=
  match l with
  | [] => [x]
  | y :: rest =>
      if Nat.leb (e_created_at y) (e_created_at x) then x :: y :: rest
      else y :: insert_newest_first x rest
  end.

Definition order_by_created_at_desc (rows : list expense_row)
  : list expense_row :=
  fold_right insert_newest_first [] rows.

Definition get_group_expenses (db : DB) (g : string) : list expense :=
  let rows :=
    order_by_created_at_desc
      (filter (fun r => String.eqb (e_group_id r) g) (expenses db)) in
  map (fun row => map_row_to_expense row (splits_of db (e_id row))) rows.

(** The [percentage] stored with a calculated split: that of the first
    declared split of the same user, for a PERCENTAGE expense. *)
Definition stored_percentage (split_type : string) (splits : list split)
           (user : string) : option Q :=
  if String.eqb split_type SPLIT_TYPE_PERCENTAGE then
    match find (fun s => String.eqb (userId s) user) splits with
    | Some original_split => s_percentage original_split
    | None => None
    end
  else None.

(** [add_expense]; [expense_id] is the fresh uuid and [now] the timestamp
    the insertion gets. *)
Definition add_expense (db : DB) (expense_id : string) (now : nat)
           (data : expense_data) : DB * result add_expense_result :=
  let group_id := d_groupId data in
  let total_amount := d_totalAmount data in
  let paid_by := d_paidBy data in
  let split_type := d_splitType data in
  let splits := d_splits data in
  match GroupService.get_group db group_id with
  | None => (db, Raise GroupNotFound)
  | Some members =>
      if negb (existsb (String.eqb paid_by) members)
      then (db, Raise PayerNotAMember)
      else
        let participant_ids := map userId splits in
        if negb (fst (GroupService.validate_group_members db group_id participant_ids))
        then (db, Raise NonMemberParticipant)
        else if negb (valid (validate_expense total_amount split_type splits))
        then (db, Raise ValidationFailed)
        else
          match calculate_splits total_amount split_type splits with
          | Raise e => (db, Raise e)
          | Ok calculated_splits =>
              let db1 :=
                with_expenses db
                  (expenses db ++
                   [mk_expense_row expense_id group_id (d_description data)
                      total_amount paid_by split_type now]) in
              let db2 :=
                with_expense_splits db1
                  (expense_splits db1 ++
                   map (fun c =>
                          mk_split_row expense_id (c_userId c) (c_amount c)
                            (stored_percentage split_type splits (c_userId c)))
                       calculated_splits) in
              let balance_updates :=
                filter (fun c => negb (String.eqb (c_userId c) paid_by))
                       calculated_splits in
              let db3 :=
                fold_left
                  (fun d c => update_balance d group_id (c_userId c) paid_by (c_amount c))
                  balance_updates db2 in
              (db3, Ok (mk_add_expense_result (get_expense db3 expense_id)
                          (get_group_balances db3 group_id)))
          end
  end.

(** The inner [for split in calculated_splits] loop of the replay. *)
Definition apply_splits (db : DB) (g paid_by : string)
           (calculated_splits : list calculated_split) : DB :=
  fold_left
    (fun d c =>
       if negb (String.eqb (c_userId c) paid_by)
       then update_balance d g (c_userId c) paid_by (c_amount c)
       else d)
    calculated_splits db.

(** The [for expense in expenses] loop of the replay; an exception of
    [calculate_splits] leaves the balances replayed so far. *)
Fixpoint replay_expenses (db : DB) (g : string) (es : list expense)
  : DB * result unit :=
  match es with
  | [] => (db, Ok tt)
  | x :: rest =>
      match calculate_splits (totalAmount x) (splitType x) (splits x) with
      | Raise e => (db, Raise e)
      | Ok calculated_splits =>
          replay_expenses (apply_splits db g (paidBy x) calculated_splits) g rest
      end
  end.

(** The body of [for settlement in settlements]. *)
Definition replay_settlement (db : DB) (st : settlement_row) : DB :=
  let current :=
    get_balance_between_users db (st_group_id st)
      (st_from_user_id st) (st_to_user_id st) in
  if 0 <? current then
    let amount_to_settle := Qmin (st_amount st) current in
    update_balance db (st_group_id st) (st_from_user_id st) (st_to_user_id st)
                   (- amount_to_settle)
  else db.

Definition recalculate_group_balances (db : DB) (g : string)
  : DB * result unit :=
  match GroupService.get_group db g with
  | None => (db, Raise GroupNotFound)
  | Some _ =>
      let db1 := clear_group_balances db g in
      let expenses := get_group_expenses db1 g in
      match replay_expenses db1 g expenses with
      | (db2, Raise e) => (db2, Raise e)
      | (db2, Ok _) =>
          let settlements :=
            filter (fun st => String.eqb (st_group_id st) g) (settlements db2) in
          (fold_left replay_settlement settlements db2, Ok tt)
      end
  end.

Definition delete_expense (db : DB) (expense_id : string) : DB * result bool :=
  match get_expense db expense_id with
  | None => (db, Ok false)
  | Some x =>
      let db1 :=
        with_expenses db
          (filter (fun r => negb (String.eqb (e_id r) expense_id)) (expenses db)) in
      match recalculate_group_balances db1 (x_groupId x) with
      | (db2, Raise e) => (db2, Raise e)
      | (db2, Ok _) => (db2, Ok true)
      end
  end.

End ExpenseService.

(** ** settlement_service.py *)

Module SettlementService.
Import BalanceService.

(** The argument of [record_settlement]. *)
Record settlement_data := mk_settlement_data {
  d_groupId : string;
  d_fromUserId : string;
  d_toUserId : string;
  d_amount : Q
}.

(** The dict that [map_row_to_settlement] builds. *)
Record settlement := mk_settlement {
  id : string;
  groupId : string;
  fromUserId : string;
  toUserId : string;
  amount : Q
}.

Record settlement_result := mk_settlement_result {
  r_settlement : option settlement;
  remainingBalance : Q
}.

Definition map_row_to_settlement (row : settlement_row) : settlement :=
  mk_settlement (st_id row) (st_group_id row) (st_from_user_id row)
                (st_to_user_id row) (st_amount row).

Definition get_settlement (db : DB) (settlement_id : string) : option settlement :=
  option_map map_row_to_settlement
    (find (fun r => String.eqb (st_id r) settlement_id) (settlements db)).

(** The net position loop, written three times in [record_settlement]:
    [-=] for a balance the user owes, [elif] [+=] for one owed to the user. *)
Definition user_net (all_balances : list balance) (user_id : string) : Q :=
  fold_left
    (fun net b =>
       if String.eqb (BalanceService.fromUserId b) user_id
       then net - b_amount b
       else if String.eqb (BalanceService.toUserId b) user_id
            then net + b_amount b
            else net)
    all_balances 0.

(** [record_settlement]; [settlement_id] is the fresh uuid. *)
Definition record_settlement (db : DB) (settlement_id : string)
           (data : settlement_data) : DB * result settlement_result :=
  let group_id := d_groupId data in
  let from_user_id := d_fromUserId data in
  let to_user_id := d_toUserId data in
  let amount := d_amount data in
  match GroupService.get_group db group_id with
  | None => (db, Raise GroupNotFound)
  | Some member_ids =>
      if negb (existsb (String.eqb from_user_id) member_ids)
         || negb (existsb (String.eqb to_user_id) member_ids)
      then (db, Raise NotAMember)
      else if amount <=? 0 then (db, Raise NonPositiveAmount)
      else
        let all_balances := get_group_balances db group_id in
        let from_user_net := user_net all_balances from_user_id in
        let to_user_net := user_net all_balances to_user_id in
        if 0 <=? from_user_net then (db, Raise PayerNotInDebt)
        else if to_user_net <=? 0 then (db, Raise RecipientNotOwed)
        else
          let max_from := Qabs from_user_net in
          let max_to := Qabs to_user_net in
          let max_allowed := Qmin max_from max_to in
          if max_allowed + cent <? amount
          then (db, Raise SettlementExceedsBalance)
          else
            let db1 :=
              with_settlements db
                (settlements db ++
                 [mk_settlement_row settlement_id group_id from_user_id
                    to_user_id amount]) in
            let db2 :=
              apply_smart_settlement db1 group_id from_user_id to_user_id amount in
            let settlement := get_settlement db2 settlement_id in
            let updated_balances := get_group_balances db2 group_id in
            let remaining_balance := user_net updated_balances from_user_id in
            (db2, Ok (mk_settlement_result settlement (round2 remaining_balance)))
  end.

End SettlementService.

(** ** The ledger as a transition system *)

Module Ledger.
Import BalanceService.

(** What can happen to the database: the four ledger operations, and the
    group collaborator changing groups and memberships. *)
Inductive event : Type :=
| AddExpense (expense_id : string) (now : nat) (data : ExpenseService.expense_data)
| RecordSettlement (settlement_id : string) (data : SettlementService.settlement_data)
| DeleteExpense (expense_id : string)
| Recalculate (g : string)
| Membership (gs : list string) (ms : list (string * string)).

(** The database an event leaves behind, whether the call returned or raised. *)
Definition run (db : DB) (ev : event) : DB :=
  match ev with
  | AddExpense expense_id now data =>
      fst (ExpenseService.add_expense db expense_id now data)
  | RecordSettlement settlement_id data =>
      fst (SettlementService.record_settlement db settlement_id data)
  | DeleteExpense expense_id =>
      fst (ExpenseService.delete_expense db expense_id)
  | Recalculate g =>
      fst (ExpenseService.recalculate_group_balances db g)
  | Membership gs ms => with_groups db gs ms
  end.

Inductive reachable : DB -> Prop :=
| reach_empty : forall gs ms, reachable (empty_ledger gs ms)
| reach_step : forall db ev, reachable db -> reachable (run db ev).

(** A record [a -> b] with a positive amount is stored in group [g]. *)
Definition owes (db : DB) (g a b : string) : bool :=
  existsb (fun r => key_match g a b r && (0 <? Store.amount r)) (balances db).

(** [r'] has the key of [r] with debtor and creditor exchanged. *)
Definition reverse_of (r r' : balance_row) : Prop :=
  group_id r' = group_id r /\ from_user_id r' = to_user_id r
  /\ to_user_id r' = from_user_id r.

(** The rows of group [g] are positive, and no two of them (nor one with
    itself) are the two directions of one pair. *)
Definition net_reduced_at (g : string) (bs : list balance_row) : Prop :=
  (forall r, In r bs -> group_id r = g -> 0 < Store.amount r)
  /\ (forall r r', In r bs -> In r' bs -> group_id r = g -> ~ reverse_of r r').

Definition net_reduced (bs : list balance_row) : Prop :=
  forall g, net_reduced_at g bs.

(** Every stored amount is positive. *)
Definition all_positive (bs : list balance_row) : Prop :=
  forall r, In r bs -> 0 < Store.amount r.

(** Two keys differ. *)
Definition other_key (g f t g' f' t' : string) : Prop :=
  g <> g' \/ f <> f' \/ t <> t'.

(** The rows of one table carry only keys of another. *)
Definition keys_within (bs bs0 : list balance_row) : Prop :=
  forall r, In r bs ->
    exists r0, In r0 bs0 /\
      key_match (group_id r) (from_user_id r) (to_user_id r) r0 = true.

(** [d'] is [d] except for balance rows of group [g]. *)
Definition differs_only_in_group (g : string) (d d' : DB) : Prop :=
  d' = with_balances d (balances d')
  /\ filter (fun r => negb (String.eqb (group_id r) g)) (balances d')
     = filter (fun r => negb (String.eqb (group_id r) g)) (balances d).

End Ledger.

(** ** The statements of the design document, in its words *)

Module Design.
Import BalanceService.

(** Net position: the amounts owed to [u] minus the amounts [u] owes. *)
Definition net (bs : list balance) (u : string) : Q :=
  py_sum (map b_amount (filter (fun b => String.eqb (toUserId b) u) bs))
  - py_sum (map b_amount (filter (fun b => String.eqb (fromUserId b) u) bs)).

(** Net position over the stored rows of group [g]. *)
Definition stored_net (db : DB) (g u : string) : Q :=
  let rows := filter (fun r => String.eqb (group_id r) g) (balances db) in
  py_sum (map Store.amount (filter (fun r => String.eqb (to_user_id r) u) rows))
  - py_sum (map Store.amount (filter (fun r => String.eqb (from_user_id r) u) rows)).

(** The expenses of group [g], oldest first. *)
Definition expenses_in_creation_order (db : DB) (g : string)
  : list ExpenseService.expense :=
  rev (ExpenseService.get_group_expenses db g).

(** A settlement folded back in as a reversal: a positive [from -> to]
    balance is lowered by [min(amount, balance)]; without one nothing
    changes. *)
Definition reverse_settlement (db : DB) (st : settlement_row) : DB :=
  let current :=
    get_balance_between_users db (st_group_id st)
      (st_from_user_id st) (st_to_user_id st) in
  if 0 <? current then
    set_balance db (st_group_id st) (st_from_user_id st) (st_to_user_id st)
                (current - Qmin (st_amount st) current)
  else db.

(** One expense replayed: its splits are recomputed and the update engine is
    called once for every participant who is not the payer. *)
Definition replay_expense (db : DB) (g : string) (x : ExpenseService.expense)
  : DB * result unit :=
  match ExpenseService.calculate_splits (ExpenseService.totalAmount x)
          (ExpenseService.splitType x) (ExpenseService.splits x) with
  | Raise e => (db, Raise e)
  | Ok shares =>
      let non_payers :=
        filter (fun c => negb (String.eqb (ExpenseService.c_userId c)
                                          (ExpenseService.paidBy x))) shares in
      (fold_left
         (fun d c => update_balance d g (ExpenseService.c_userId c)
                       (ExpenseService.paidBy x) (ExpenseService.c_amount c))
         non_payers db, Ok tt)
  end.

Fixpoint replay_in_order (db : DB) (g : string) (es : list ExpenseService.expense)
  : DB * result unit :=
  match es with
  | [] => (db, Ok tt)
  | x :: rest =>
      match replay_expense db g x with
      | (db1, Raise e) => (db1, Raise e)
      | (db1, Ok _) => replay_in_order db1 g rest
      end
  end.

(** Recalculation over a given order of the expenses: clear the group's
    balances, replay the expenses in that order, replay the settlements as
    reversals. *)
Definition recalculate_over
           (order : DB -> string -> list ExpenseService.expense)
           (db : DB) (g : string) : DB * result unit :=
  match GroupService.get_group db g with
  | None => (db, Raise GroupNotFound)
  | Some _ =>
      let db1 := clear_group_balances db g in
      match replay_in_order db1 g (order db1 g) with
      | (db2, Raise e) => (db2, Raise e)
      | (db2, Ok _) =>
          (fold_left reverse_settlement
             (filter (fun st => String.eqb (st_group_id st) g) (settlements db2))
             db2, Ok tt)
      end
  end.

(** A list of expenses runs from the newest to the oldest. *)
Definition newest_first (es : list ExpenseService.expense) : Prop :=
  StronglySorted
    (fun x y => (ExpenseService.createdAt y <= ExpenseService.createdAt x)%nat) es.

(** The expense rows of group [g], as dicts, in table order. *)
Definition surviving_expenses (db : DB) (g : string) : list ExpenseService.expense :=
  map (fun row => ExpenseService.map_row_to_expense row
                    (ExpenseService.splits_of db (e_id row)))
      (filter (fun r => String.eqb (e_group_id r) g) (expenses db)).

(** [x] when [b] holds, else nothing. *)
Definition pick (b : bool) (x : Q) : Q := if b then x else 0.

(** What the entries of a debtor or creditor list hold for user [u]. *)
Definition share_of (l : list (string * Q)) (u : string) : Q :=
  py_sum (map snd (filter (fun p => String.eqb (fst p) u) l)).



End Design.

(** ** Concrete ledgers *)

Module Scenario.
Import ExpenseService.
Local Open Scope string_scope.

Definition pair : string := "pair".
Definition trio : string := "trio".
Definition e1 : string := "e1".
Definition e2 : string := "e2".
Definition s1 : string := "s1".
Definition alice : string := "alice".
Definition bob : string := "bob".
Definition carol : string := "carol".

(** A group of two and a group of three, nothing recorded yet. *)
Definition start : DB :=
  empty_ledger ["pair"; "trio"]
    [("pair", alice); ("pair", bob);
     ("trio", alice); ("trio", bob); ("trio", carol)].

Definition participant (u : string) : split := mk_split u None None.
Definition exact_share (u : string) (a : Q) : split := mk_split u (Some a) None.

(** Alice pays a dinner of 100, split equally between Alice and Bob. *)
Definition dinner : expense_data :=
  mk_expense_data "pair" "Dinner" 100 alice SPLIT_TYPE_EQUAL
                  [participant alice; participant bob].

Definition after_dinner : DB := fst (add_expense start "e1" 1 dinner).

(** Alice pays 0.004 that Bob owes entirely. *)
Definition crumbs : expense_data :=
  mk_expense_data "pair" "Crumbs" (4 # 1000) alice SPLIT_TYPE_EXACT
                  [exact_share bob (4 # 1000)].

Definition after_crumbs : DB := fst (add_expense start "e1" 1 crumbs).



(** In the group of three Alice pays 10 for Bob, and later 10 for Carol. *)
Definition for_bob : expense_data :=
  mk_expense_data "trio" "Taxi" 10 alice SPLIT_TYPE_EXACT [exact_share bob 10].
Definition for_carol : expense_data :=
  mk_expense_data "trio" "Lunch" 10 alice SPLIT_TYPE_EXACT [exact_share carol 10].

Definition after_taxi_and_lunch : DB :=
  fst (add_expense (fst (add_expense start "e1" 1 for_bob)) "e2" 2 for_carol).

(** In the group of three Alice pays 90 shared equally by all, then Bob pays
    20 that Carol owes entirely. *)
Definition shared_by_three : expense_data :=
  mk_expense_data "trio" "Cabin" 90 alice SPLIT_TYPE_EQUAL
                  [participant alice; participant bob; participant carol].
Definition bob_for_carol : expense_data :=
  mk_expense_data "trio" "Fuel" 20 bob SPLIT_TYPE_EXACT [exact_share carol 20].

Definition after_cabin_and_fuel : DB :=
  fst (add_expense (fst (add_expense start "e1" 1 shared_by_three))
                   "e2" 2 bob_for_carol).

(** Exact shares of 50.005 and 50 for an expense of 100. *)
Definition uneven_shares : list split :=
  [exact_share alice (50005 # 1000); exact_share bob 50].


End Scenario.

(** ** balance_service.py, the remaining methods *)

Module BalanceQueries.
Import BalanceService.



(** The dict that [get_user_balances_in_group] returns. *)
Record group_position := mk_group_position {
  owes : list balance;
  owed : list balance
}.

Definition get_user_balances_in_group (db : DB) (g user_id : string)
  : group_position :=
  let all_balances := get_group_balances db g in
  mk_group_position
    (filter (fun b => String.eqb (fromUserId b) user_id) all_balances)
    (filter (fun b => String.eqb (toUserId b) user_id) all_balances).

(** The dict that [get_user_balances] returns. *)
Record user_position := mk_user_position {
  userId : string;
  all_owes : list balance;
  all_owed : list balance;
  netBalance : Q
}.

Definition get_user_balances (db : DB) (user_id : string) : user_position :=
  let rows :=
    filter (fun r => String.eqb (from_user_id r) user_id
                     || String.eqb (to_user_id r) user_id) (balances db) in
  let balances := map map_row_to_balance rows in
  let owes := filter (fun b => String.eqb (fromUserId b) user_id) balances in
  let owed := filter (fun b => String.eqb (toUserId b) user_id) balances in
  let total_owes := py_sum (map b_amount owes) in
  let total_owed := py_sum (map b_amount owed) in
  let net_balance := round2 (total_owed - total_owes) in
  mk_user_position user_id owes owed net_balance.

End BalanceQueries.

(** ** Transfers, for reasoning about replays *)

Module Transfers.
Import BalanceService.



(** What [a] owes [b] minus what [b] owes [a]. *)
Definition signed (db : DB) (g a b : string) : Q :=
  get_balance_between_users db g a b - get_balance_between_users db g b a.





(** The balance rows of group [g], in table order. *)
Definition group_rows (db : DB) (g : string) : list balance_row :=
  filter (fun r => String.eqb (group_id r) g) (balances db).

(** Two databases read the same for every pair of group [g]. *)
Definition same_readings (g : string) (d d' : DB) : Prop :=
  forall a b, get_balance_between_users d g a b
              == get_balance_between_users d' g a b.


End Transfers.

(** ** user_service.py and the writing half of group_service.py

    The [users], [groups] and [group_members] tables with all their
    columns.  The uuid of a new row, the [created_at] default and the bcrypt
    hash of a new password are inputs; [bcrypt.checkpw] is a function
    argument. *)

Module Directory.

(** A row of [users]. *)
Record user_row := mk_user_row {
  u_id : string;
  u_name : string;
  u_email : string;
  u_password_hash : string;
  u_created_at : nat
}.

(** A row of [groups]. *)
Record group_row := mk_group_row {
  g_id : string;
  g_name : string;
  g_description : string;
  g_created_by : string;
  g_created_at : nat
}.

Record Dir := mk_Dir {
  user_table : list user_row;
  group_table : list group_row;
  member_table : list (string * string)
}.

Definition empty_directory : Dir := mk_Dir [] [] [].

(** The [ValueError]s of the two services. *)
Inductive directory_error :=
| Email_already_exists
| Creator_user_does_not_exist
| Group_not_found
| User_does_not_exist.

Inductive outcome (A : Type) :=
| Returned (a : A)
| Raised (e : directory_error).

Arguments Returned {A} a.
Arguments Raised {A} e.

(** The dict that [map_row_to_user] builds. *)
Record user := mk_user {
  usr_id : string;
  usr_name : string;
  usr_email : string;
  usr_createdAt : nat
}.

Definition map_row_to_user (row : user_row) : user :=
  mk_user (u_id row) (u_name row) (u_email row) (u_created_at row).

Definition get_user (dir : Dir) (user_id : string) : option user :=
  option_map map_row_to_user
    (find (fun r => String.eqb (u_id r) user_id) (user_table dir)).

Definition get_user_by_email (dir : Dir) (email : string) : option user :=
  option_map map_row_to_user
    (find (fun r => String.eqb (u_email r) email) (user_table dir)).

Definition user_exists (dir : Dir) (user_id : string) : bool :=
  match find (fun r => String.eqb (u_id r) user_id) (user_table dir) with
  | Some _ => true
  | None => false
  end.

Definition create_user (dir : Dir) (user_id password_hash : string) (now : nat)
           (name email : string) : Dir * outcome (option user) :=
  match get_user_by_email dir email with
  | Some _ => (dir, Raised Email_already_exists)
  | None =>
      let dir1 :=
        mk_Dir (user_table dir
                ++ [mk_user_row user_id name email password_hash now])
               (group_table dir) (member_table dir) in
      (dir1, Returned (get_user dir1 user_id))
  end.

Definition validate_users (dir : Dir) (user_ids : list string)
  : bool * list string :=
  let missing_users := filter (fun uid => negb (user_exists dir uid)) user_ids in
  (match missing_users with [] => true | _ => false end, missing_users).

Definition verify_password (checkpw : string -> string -> bool) (dir : Dir)
           (email password : string) : option user :=
  match find (fun r => String.eqb (u_email r) email) (user_table dir) with
  | None => None
  | Some row =>
      if checkpw password (u_password_hash row)
      then Some (map_row_to_user row)
      else None
  end.

(** The dict that [map_row_to_group] builds. *)
Record group := mk_group {
  grp_id : string;
  grp_name : string;
  grp_description : string;
  grp_members : list string;
  grp_createdBy : string;
  grp_createdAt : nat
}.

Definition map_row_to_group (row : group_row) (members : list string) : group :=
  mk_group (g_id row) (g_name row) (g_description row) members
           (g_created_by row) (g_created_at row).

Definition get_group (dir : Dir) (group_id : string) : option group :=
  match find (fun r => String.eqb (g_id r) group_id) (group_table dir) with
  | None => None
  | Some row =>
      Some (map_row_to_group row
              (map snd (filter (fun m => String.eqb (fst m) group_id)
                               (member_table dir))))
  end.

Definition group_exists (dir : Dir) (group_id : string) : bool :=
  match find (fun r => String.eqb (g_id r) group_id) (group_table dir) with
  | Some _ => true
  | None => false
  end.

Definition create_group (dir : Dir) (group_id : string) (now : nat)
           (name description created_by : string)
  : Dir * outcome (option group) :=
  if negb (user_exists dir created_by)
  then (dir, Raised Creator_user_does_not_exist)
  else
    let dir1 :=
      mk_Dir (user_table dir)
             (group_table dir
              ++ [mk_group_row group_id name description created_by now])
             (member_table dir ++ [(group_id, created_by)]) in
    (dir1, Returned (get_group dir1 group_id)).

Definition add_member (dir : Dir) (group_id user_id : string)
  : Dir * outcome bool :=
  match get_group dir group_id with
  | None => (dir, Raised Group_not_found)
  | Some _ =>
      if negb (user_exists dir user_id)
      then (dir, Raised User_does_not_exist)
      else if existsb (fun m => String.eqb (fst m) group_id
                                && String.eqb (snd m) user_id)
                      (member_table dir)
      then (dir, Returned false)
      else (mk_Dir (user_table dir) (group_table dir)
                   (member_table dir ++ [(group_id, user_id)]),
            Returned true)
  end.

(** The two tables that the ledger services read, put into a ledger
    database. *)
Definition ledger_over (dir : Dir) (db : DB) : DB :=
  with_groups db (map g_id (group_table dir)) (member_table dir).

(** What the three writing calls keep: every membership joins an existing
    user to an existing group, no membership is stored twice, and no two
    users have the same id or the same email, no two groups the same id. *)
Definition consistent (dir : Dir) : Prop :=
  (forall m, In m (member_table dir) ->
     group_exists dir (fst m) = true /\ user_exists dir (snd m) = true)
  /\ NoDup (member_table dir)
  /\ NoDup (map u_id (user_table dir))
  /\ NoDup (map u_email (user_table dir))
  /\ NoDup (map g_id (group_table dir)).

(** The calls of the two services that write. *)
Inductive call :=
| CreateUser (user_id password_hash : string) (now : nat) (name email : string)
| CreateGroup (group_id : string) (now : nat)
              (name description created_by : string)
| AddMember (group_id user_id : string).

Definition perform (dir : Dir) (c : call) : Dir :=
  match c with
  | CreateUser user_id password_hash now name email =>
      fst (create_user dir user_id password_hash now name email)
  | CreateGroup group_id now name description created_by =>
      fst (create_group dir group_id now name description created_by)
  | AddMember group_id user_id => fst (add_member dir group_id user_id)
  end.

(** A uuid is new: no row of its table has it. *)
Definition fresh (dir : Dir) (c : call) : Prop :=
  match c with
  | CreateUser user_id _ _ _ _ => user_exists dir user_id = false
  | CreateGroup group_id _ _ _ _ => group_exists dir group_id = false
  | AddMember _ _ => True
  end.

End Directory.

(** A small directory: two users and a group that the first one creates. *)

Module Office.
Import Directory.
Local Open Scope string_scope.

Definition ann : string := "u-ann".
Definition ben : string := "u-ben".
Definition flat : string := "g-flat".
Definition ann_mail : string := "ann@example.org".
Definition ben_mail : string := "ben@example.org".
Definition ann_hash : string := "hash-of-ann".
Definition ben_hash : string := "hash-of-ben".
Definition ann_name : string := "Ann".
Definition ben_name : string := "Ben".
Definition flat_name : string := "Flat".
Definition flat_description : string := "Rent and bills".

Definition with_ann : Dir :=
  fst (create_user empty_directory ann ann_hash 1 ann_name ann_mail).

Definition with_ben : Dir :=
  fst (create_user with_ann ben ben_hash 2 ben_name ben_mail).

Definition with_flat : Dir :=
  fst (create_group with_ben flat 3 flat_name flat_description ann).

(** A password check that accepts a password whose hash is the password
    with [hash-of-] before it. *)
Definition checkpw (password password_hash : string) : bool :=
  String.eqb ("hash-of-" ++ password) password_hash.

Definition ann_password : string := "ann".

End Office.

(** * Properties *)

(** ** Comparisons and rounding *)

Section Numbers.

Lemma Qltb_lt (a b : Q) : (a <? b) = true <-> a < b.
Proof.
  unfold Qltb. rewrite negb_true_iff.
  split; intro H.
  - apply Qnot_le_lt. intro Hle. apply Qle_bool_iff in Hle. congruence.
  - destruct (b <=? a) eqn:E; [|reflexivity].
    apply Qle_bool_iff in E. exfalso. apply (Qlt_not_le _ _ H E).
Qed.

Lemma Qltb_ge (a b : Q) : (a <? b) = false <-> b <= a.
Proof.
  unfold Qltb. rewrite negb_false_iff. apply Qle_bool_iff.
Qed.

Lemma Qltb_spec (a b : Q) : reflect (a < b) (a <? b).
Proof. apply iff_reflect. symmetry. apply Qltb_lt. Qed.

Lemma Qleb_spec (a b : Q) : reflect (a <= b) (a <=? b).
Proof. apply iff_reflect. symmetry. apply Qle_bool_iff. Qed.





(** An integer rounds to itself. *)
Lemma round_half_even_inject (z : Z) : round_half_even (inject_Z z) = z.
Proof.
  unfold round_half_even. rewrite Qfloor_Z.
  assert (E : Qcompare (inject_Z z - inject_Z z) (1 # 2) = Lt).
  { rewrite <- Qlt_alt. lra. }
  rewrite E. reflexivity.
Qed.

Lemma round_half_even_compat (x y : Q) :
  x == y -> round_half_even x = round_half_even y.
Proof.
  intro H. unfold round_half_even.
  assert (Hf : Qfloor x = Qfloor y) by (apply Qfloor_comp; exact H).
  rewrite Hf.
  assert (Hc : Qcompare (x - inject_Z (Qfloor y)) (1 # 2)
               = Qcompare (y - inject_Z (Qfloor y)) (1 # 2)).
  { apply Qcompare_comp; [rewrite H|]; reflexivity. }
  rewrite Hc. reflexivity.
Qed.


Lemma round2_is_whole_cents (x : Q) : whole_cents (round2 x).
Proof. exists (round_half_even (x * 100)). reflexivity. Qed.

(** Rounding a non-negative number gives a non-negative number. *)
Lemma round2_nonneg (x : Q) : 0 <= x -> 0 <= round2 x.
Proof.
  intro Hx.
  assert (Hm : 0 <= x * 100) by (apply Qmult_le_0_compat; lra).
  apply Qfloor_resp_le in Hm. change (Qfloor 0) with 0%Z in Hm.
  assert (Hr : (0 <= round_half_even (x * 100))%Z).
  { unfold round_half_even.
    destruct (Qcompare _ _); [destruct (Z.even _)| |]; lia. }
  unfold round2, Qle. simpl. lia.
Qed.

End Numbers.

(** ** The balances table under [set_balance] and [update_balance] *)

Section Table.
Import BalanceService Ledger.

Lemma key_match_iff (g f t : string) (r : balance_row) :
  key_match g f t r = true
  <-> group_id r = g /\ from_user_id r = f /\ to_user_id r = t.
Proof.
  unfold key_match. rewrite !andb_true_iff, !String.eqb_eq. tauto.
Qed.

Lemma key_match_row (g f t : string) (a : Q) :
  key_match g f t (mk_balance_row g f t a) = true.
Proof. apply key_match_iff. simpl. auto. Qed.

(** The rows after [set_balance]: the other keys' rows, then the new one. *)
Lemma In_set_balance (db : DB) (g f t : string) (a : Q) (r : balance_row) :
  In r (balances (set_balance db g f t a))
  <-> (In r (balances db) /\ key_match g f t r = false)
      \/ (0 < a /\ r = mk_balance_row g f t a).
Proof.
  unfold set_balance. simpl.
  destruct (Qltb_spec 0 a) as [Ha|Ha].
  - rewrite in_app_iff, filter_In, negb_true_iff. simpl.
    split; intros [H|H]; auto.
    + destruct H as [H|[]]. right. auto.
    + right. left. symmetry. apply H.
  - rewrite filter_In, negb_true_iff. split; [auto|].
    intros [H|[H _]]; [exact H|contradiction].
Qed.

Lemma find_none_filter {A : Type} (p : A -> bool) (l : list A) :
  find p (filter (fun x => negb (p x)) l) = None.
Proof.
  induction l as [|x l IH]; simpl; [reflexivity|].
  destruct (p x) eqn:E; simpl; [exact IH|]. rewrite E. exact IH.
Qed.

Lemma find_filter_other {A : Type} (p q : A -> bool) (l : list A) :
  (forall x, q x = true -> p x = true) ->
  find q (filter p l) = find q l.
Proof.
  intro H. induction l as [|x l IH]; simpl; [reflexivity|].
  destruct (q x) eqn:Eq.
  - rewrite (H x Eq). simpl. rewrite Eq. reflexivity.
  - destruct (p x); simpl; [rewrite Eq|]; exact IH.
Qed.

Lemma find_app_miss {A : Type} (q : A -> bool) (l : list A) (x : A) :
  q x = false -> find q (l ++ [x]) = find q l.
Proof.
  intro H. induction l as [|y l IH]; simpl.
  - rewrite H. reflexivity.
  - destruct (q y); [reflexivity|exact IH].
Qed.

Lemma find_app_hit {A : Type} (q : A -> bool) (l : list A) (x : A) :
  find q l = None -> q x = true -> find q (l ++ [x]) = Some x.
Proof.
  intros Hn Hx. induction l as [|y l IH]; simpl in *.
  - rewrite Hx. reflexivity.
  - destruct (q y); [discriminate|auto].
Qed.

(** Reading back the key that was written. *)
Lemma get_set_same (db : DB) (g f t : string) (a : Q) :
  get_balance_between_users (set_balance db g f t a) g f t
  = if 0 <? a then a else 0.
Proof.
  unfold get_balance_between_users, set_balance. simpl.
  destruct (0 <? a).
  - rewrite find_app_hit; [reflexivity|apply find_none_filter|apply key_match_row].
  - rewrite find_none_filter. reflexivity.
Qed.

Lemma key_match_other (g f t g' f' t' : string) (r : balance_row) :
  other_key g f t g' f' t' ->
  key_match g' f' t' r = true -> key_match g f t r = false.
Proof.
  intros Hk H. apply key_match_iff in H. destruct H as (Hg & Hf & Ht).
  destruct (key_match g f t r) eqn:E; [|reflexivity].
  apply key_match_iff in E. destruct E as (Hg' & Hf' & Ht').
  unfold other_key in Hk. subst. tauto.
Qed.

(** Writing one key leaves the first row of every other key where it is. *)
Lemma find_set_other (db : DB) (g f t g' f' t' : string) (a : Q) :
  other_key g f t g' f' t' ->
  find (key_match g' f' t') (balances (set_balance db g f t a))
  = find (key_match g' f' t') (balances db).
Proof.
  intro Hk. unfold set_balance. simpl.
  assert (Hf : find (key_match g' f' t')
                 (filter (fun r => negb (key_match g f t r)) (balances db))
               = find (key_match g' f' t') (balances db)).
  { apply find_filter_other. intros x Hx.
    rewrite (key_match_other _ _ _ _ _ _ x Hk Hx). reflexivity. }
  destruct (0 <? a); [|exact Hf].
  rewrite find_app_miss; [exact Hf|].
  destruct (key_match g' f' t' (mk_balance_row g f t a)) eqn:E; [|reflexivity].
  pose proof (key_match_other _ _ _ _ _ _ _ Hk E) as Hm.
  pose proof (key_match_row g f t a). congruence.
Qed.

(** A positive reading comes from a stored row. *)
Lemma get_positive_row (db : DB) (g f t : string) :
  0 < get_balance_between_users db g f t ->
  exists r, In r (balances db) /\ key_match g f t r = true.
Proof.
  unfold get_balance_between_users.
  destruct (find (key_match g f t) (balances db)) as [r|] eqn:E.
  - intros _. apply find_some in E. exists r. exact E.
  - intro H. exfalso. apply (Qlt_irrefl 0 H).
Qed.

Lemma net_reduced_at_incl (g : string) (bs bs' : list balance_row) :
  incl bs' bs -> net_reduced_at g bs -> net_reduced_at g bs'.
Proof.
  intros Hi [Hp Hr]. split.
  - intros r Hin. apply Hp, Hi, Hin.
  - intros r r' Hin Hin'. apply Hr; apply Hi; assumption.
Qed.

(** Writing a key whose reverse is not stored keeps the group net-reduced. *)
Lemma set_balance_net_reduced (g0 : string) (db : DB) (g f t : string) (a : Q) :
  net_reduced_at g0 (balances db) ->
  f <> t ->
  (forall r, In r (balances db) -> key_match g t f r = false) ->
  net_reduced_at g0 (balances (set_balance db g f t a)).
Proof.
  intros [Hp Hr] Hft Hrev. split.
  - intros r Hin Hg. apply In_set_balance in Hin.
    destruct Hin as [[Hin _]|[Ha ->]]; [apply Hp; assumption|exact Ha].
  - intros r r' Hin Hin' Hg (Rg & Rf & Rt).
    apply In_set_balance in Hin. apply In_set_balance in Hin'.
    destruct Hin as [[Hin _]|[_ ->]]; destruct Hin' as [[Hin' _]|[_ ->]];
      simpl in *.
    + apply (Hr r r' Hin Hin' Hg). repeat split; assumption.
    + specialize (Hrev r Hin).
      assert (key_match g t f r = true) by (apply key_match_iff; auto).
      congruence.
    + specialize (Hrev r' Hin').
      assert (key_match g t f r' = true) by (apply key_match_iff; auto).
      congruence.
    + auto.
Qed.

(** Deleting a key keeps the group net-reduced. *)
Lemma set_balance_delete_net_reduced (g0 : string) (db : DB) (g f t : string)
      (a : Q) :
  net_reduced_at g0 (balances db) -> a <= 0 ->
  net_reduced_at g0 (balances (set_balance db g f t a)).
Proof.
  intros H Ha. apply (net_reduced_at_incl g0 (balances db)); [|exact H].
  intros r Hin. apply In_set_balance in Hin.
  destruct Hin as [[Hin _]|[Hpos _]]; [exact Hin|].
  exfalso. apply (Qlt_not_le _ _ Hpos Ha).
Qed.

End Table.

(** ** The ledger stays net-reduced *)

Section NetReduced.
Import ExpenseService BalanceService Ledger.

(** In a net-reduced group a stored key excludes its reverse. *)
Lemma stored_excludes_reverse (g f t : string) (bs : list balance_row)
      (r0 : balance_row) :
  net_reduced_at g bs -> In r0 bs -> key_match g f t r0 = true ->
  forall r, In r bs -> key_match g t f r = false.
Proof.
  intros [_ Hr] Hin0 Hk0 r Hin.
  destruct (key_match g t f r) eqn:E; [|reflexivity].
  apply key_match_iff in Hk0. destruct Hk0 as (Hg0 & Hf0 & Ht0).
  apply key_match_iff in E. destruct E as (Hg & Hf & Ht).
  exfalso. apply (Hr r0 r Hin0 Hin Hg0).
  unfold reverse_of. subst. auto.
Qed.

(** In a net-reduced group a key that reads as non-positive is not stored. *)
Lemma nonpositive_not_stored (g f t : string) (db : DB) :
  net_reduced_at g (balances db) ->
  get_balance_between_users db g f t <= 0 ->
  forall r, In r (balances db) -> key_match g f t r = false.
Proof.
  intros [Hp _] Hle r Hin.
  destruct (key_match g f t r) eqn:E; [|reflexivity].
  unfold get_balance_between_users in Hle.
  destruct (find (key_match g f t) (balances db)) as [r'|] eqn:Ef.
  - apply find_some in Ef. destruct Ef as [Hin' Hk'].
    apply key_match_iff in Hk'. destruct Hk' as (Hg' & _).
    specialize (Hp r' Hin' Hg'). exfalso. apply (Qlt_not_le _ _ Hp Hle).
  - pose proof (find_none _ _ Ef r Hin). congruence.
Qed.

(** [update_balance] between two different users keeps every group
    net-reduced, whatever the sign of the amount. *)
Lemma update_balance_net_reduced (g0 : string) (db : DB) (g f t : string) (a : Q) :
  net_reduced_at g (balances db) ->
  net_reduced_at g0 (balances db) ->
  f <> t ->
  net_reduced_at g0 (balances (update_balance db g f t a)).
Proof.
  intros Hg Hg0 Hft. unfold update_balance.
  destruct (Qltb_spec 0 (get_balance_between_users db g t f)) as [Hpos|Hnon].
  - destruct (get_positive_row db g t f Hpos) as (r0 & Hin0 & Hk0).
    destruct (Qltb_spec a (get_balance_between_users db g t f)) as [Hlt|Hge].
    + apply set_balance_net_reduced; auto.
      apply (stored_excludes_reverse g t f _ r0); assumption.
    + destruct (Qltb_spec (get_balance_between_users db g t f) a) as [Hlt'|Hge'].
      * apply set_balance_net_reduced; auto.
        -- apply set_balance_delete_net_reduced; [assumption|apply Qle_refl].
        -- intros r Hin. apply In_set_balance in Hin.
           destruct Hin as [[_ Hk]|[Habs _]]; [exact Hk|].
           exfalso. apply (Qlt_irrefl 0 Habs).
      * apply set_balance_delete_net_reduced; [assumption|apply Qle_refl].
  - apply set_balance_net_reduced; auto.
    apply nonpositive_not_stored; [assumption|].
    apply Qnot_lt_le. exact Hnon.
Qed.

Lemma keys_within_refl (bs : list balance_row) : keys_within bs bs.
Proof.
  intros r Hin. exists r. split; [exact Hin|].
  apply key_match_iff. auto.
Qed.

(** A table of positive rows whose keys all come from a net-reduced table
    is net-reduced. *)
Lemma keys_within_net_reduced (bs bs0 : list balance_row) :
  net_reduced bs0 -> keys_within bs bs0 -> all_positive bs -> net_reduced bs.
Proof.
  intros H0 Hk Hp g. split.
  - intros r Hin _. apply Hp, Hin.
  - intros r r' Hin Hin' Hg (Rg & Rf & Rt).
    destruct (Hk r Hin) as (q & Hq & Kq).
    destruct (Hk r' Hin') as (q' & Hq' & Kq').
    apply key_match_iff in Kq. destruct Kq as (Qg & Qf & Qt).
    apply key_match_iff in Kq'. destruct Kq' as (Qg' & Qf' & Qt').
    destruct (H0 g) as [_ Hr].
    apply (Hr q q' Hq Hq'); [congruence|].
    unfold reverse_of. repeat split; congruence.
Qed.

Lemma net_reduced_all_positive (bs : list balance_row) :
  net_reduced bs -> all_positive bs.
Proof.
  intros H r Hin. destruct (H (group_id r)) as [Hp _]. apply Hp; auto.
Qed.

(** The reduction loops of [apply_smart_settlement] write only keys that
    were stored when the snapshot was taken. *)
Lemma reduce_in_order_within (bs0 : list balance_row) (g : string)
      (items : list balance) :
  (forall b, In b items ->
     exists r0, In r0 bs0 /\ key_match g (fromUserId b) (toUserId b) r0 = true) ->
  forall (db : DB) (remaining : Q),
    keys_within (balances db) bs0 -> all_positive (balances db) ->
    keys_within (balances (reduce_in_order db g items remaining)) bs0
    /\ all_positive (balances (reduce_in_order db g items remaining)).
Proof.
  induction items as [|b items IH]; intros Hitems db remaining Hk Hp; simpl.
  - auto.
  - destruct (remaining <=? 0); [auto|].
    apply IH.
    + intros b' Hb'. apply Hitems. right. exact Hb'.
    + intros r Hin. apply In_set_balance in Hin.
      destruct Hin as [[Hin _]|[_ ->]]; [apply Hk, Hin|].
      simpl. apply Hitems. left. reflexivity.
    + intros r Hin. apply In_set_balance in Hin.
      destruct Hin as [[Hin _]|[Ha ->]]; [apply Hp, Hin|exact Ha].
Qed.

Lemma get_group_balances_stored (db : DB) (g : string) (b : balance) :
  In b (get_group_balances db g) ->
  exists r, In r (balances db) /\ group_id r = g /\ 0 < Store.amount r
            /\ b = map_row_to_balance r.
Proof.
  unfold get_group_balances. intro H.
  apply in_map_iff in H. destruct H as (r & Hb & Hin).
  apply filter_In in Hin. destruct Hin as [Hin Hc].
  apply andb_true_iff in Hc. destruct Hc as [Hg Ha].
  apply String.eqb_eq in Hg. apply Qltb_lt in Ha.
  exists r. auto.
Qed.

Lemma snapshot_keys (db : DB) (g : string) (p : balance -> bool) (b : balance) :
  In b (filter p (get_group_balances db g)) ->
  exists r0, In r0 (balances db)
             /\ key_match g (fromUserId b) (toUserId b) r0 = true.
Proof.
  intro H. apply filter_In in H. destruct H as [H _].
  apply get_group_balances_stored in H.
  destruct H as (r & Hin & Hg & _ & ->).
  exists r. split; [exact Hin|]. apply key_match_iff. simpl. auto.
Qed.

Lemma guarded_reduce_within (bs0 : list balance_row) (db0 db : DB) (g : string)
      (p : balance -> bool) (guard : bool) (a : Q) :
  bs0 = balances db0 ->
  keys_within (balances db) bs0 -> all_positive (balances db) ->
  let items := filter p (get_group_balances db0 g) in
  let db' := if guard then reduce_in_order db g items a else db in
  keys_within (balances db') bs0 /\ all_positive (balances db').
Proof.
  intros -> K P items db'. subst db'. destruct guard; [|auto].
  apply reduce_in_order_within; auto.
  intros b Hb. apply (snapshot_keys db0 g p b Hb).
Qed.

Lemma apply_smart_settlement_keeps (db : DB) (g payer recipient : string)
      (a : Q) :
  net_reduced (balances db) ->
  net_reduced (balances (apply_smart_settlement db g payer recipient a)).
Proof.
  intro H. unfold apply_smart_settlement.
  pose proof (guarded_reduce_within (balances db) db db g
                (fun b => String.eqb (fromUserId b) payer)
                (0 <? py_sum (map b_amount
                   (filter (fun b => String.eqb (fromUserId b) payer)
                           (get_group_balances db g)))) a eq_refl
                (keys_within_refl _) (net_reduced_all_positive _ H)) as [K1 P1].
  pose proof (guarded_reduce_within (balances db) db _ g
                (fun b => String.eqb (toUserId b) recipient)
                (0 <? py_sum (map b_amount
                   (filter (fun b => String.eqb (toUserId b) recipient)
                           (get_group_balances db g)))) a eq_refl K1 P1) as [K2 P2].
  apply (keys_within_net_reduced _ (balances db)); assumption.
Qed.

End NetReduced.

(** ** Every operation keeps the ledger net-reduced *)

Section Operations.
Import ExpenseService BalanceService Ledger.

Variables g g0 : string.

(** Group [g], on which the operation works, and any group [g0]. *)
Let both (db : DB) : Prop :=
  net_reduced_at g (balances db) /\ net_reduced_at g0 (balances db).

Lemma update_balance_both (db : DB) (f t : string) (a : Q) :
  f <> t -> both db -> both (update_balance db g f t a).
Proof.
  intros Hft [H H0]. split; apply update_balance_net_reduced; assumption.
Qed.

Lemma apply_splits_both (paid_by : string) (cs : list calculated_split) :
  forall db, both db -> both (apply_splits db g paid_by cs).
Proof.
  unfold apply_splits.
  induction cs as [|c cs IH]; intros db H; simpl; [exact H|].
  apply IH.
  destruct (String.eqb_spec (c_userId c) paid_by) as [E|E]; simpl; [exact H|].
  apply update_balance_both; assumption.
Qed.

Lemma balance_updates_both (paid_by : string) (cs : list calculated_split) :
  forall db, both db ->
  both (fold_left
          (fun d c => update_balance d g (c_userId c) paid_by (c_amount c))
          (filter (fun c => negb (String.eqb (c_userId c) paid_by)) cs) db).
Proof.
  induction cs as [|c cs IH]; intros db H; simpl; [exact H|].
  destruct (String.eqb_spec (c_userId c) paid_by) as [E|E]; simpl.
  - apply IH, H.
  - apply IH. apply update_balance_both; assumption.
Qed.

Lemma replay_expenses_both (es : list expense) :
  forall db, both db -> both (fst (replay_expenses db g es)).
Proof.
  induction es as [|x es IH]; intros db H; simpl; [exact H|].
  destruct (calculate_splits _ _ _) as [cs|e]; simpl; [|exact H].
  apply IH. apply apply_splits_both. exact H.
Qed.

(** A stored key of a net-reduced group joins two different users. *)
Lemma stored_key_distinct (db : DB) (f t : string) :
  net_reduced_at g (balances db) ->
  0 < get_balance_between_users db g f t -> f <> t.
Proof.
  intros [_ Hr] Hpos E. subst t.
  destruct (get_positive_row db g f f Hpos) as (r & Hin & Hk).
  apply key_match_iff in Hk. destruct Hk as (Hg & Hf & Ht).
  apply (Hr r r Hin Hin Hg). unfold reverse_of. repeat split; congruence.
Qed.

Lemma replay_settlement_both (st : settlement_row) (db : DB) :
  st_group_id st = g -> both db -> both (replay_settlement db st).
Proof.
  intros Hg H. unfold replay_settlement. rewrite Hg.
  destruct (Qltb_spec 0 (get_balance_between_users db g
                           (st_from_user_id st) (st_to_user_id st)))
    as [Hpos|_]; [|exact H].
  apply update_balance_both; [|exact H].
  apply (stored_key_distinct db); [apply H|exact Hpos].
Qed.

Lemma replay_settlements_both (sts : list settlement_row) :
  forall db, both db ->
  both (fold_left replay_settlement
          (filter (fun st => String.eqb (st_group_id st) g) sts) db).
Proof.
  induction sts as [|st sts IH]; intros db H; simpl; [exact H|].
  destruct (String.eqb_spec (st_group_id st) g) as [E|E]; simpl.
  - apply IH. apply replay_settlement_both; assumption.
  - apply IH, H.
Qed.

Lemma clear_group_balances_incl (db : DB) (g' : string) :
  incl (balances (clear_group_balances db g')) (balances db).
Proof.
  unfold clear_group_balances. simpl. intros r Hin.
  apply filter_In in Hin. apply Hin.
Qed.

Lemma clear_group_balances_both (db : DB) :
  both db -> both (clear_group_balances db g).
Proof.
  intros [H H0].
  split; eapply net_reduced_at_incl; eauto using clear_group_balances_incl.
Qed.

Lemma recalculate_both (db : DB) :
  both db -> both (fst (recalculate_group_balances db g)).
Proof.
  intro H. unfold recalculate_group_balances.
  destruct (GroupService.get_group db g); [|exact H].
  pose proof (replay_expenses_both
                (get_group_expenses (clear_group_balances db g) g)
                _ (clear_group_balances_both db H)) as H2.
  destruct (replay_expenses _ g _) as [db2 [u|e]]; simpl in *; [|exact H2].
  apply replay_settlements_both. exact H2.
Qed.

End Operations.

Section Reachability.
Import ExpenseService BalanceService Ledger.

Lemma net_reduced_pair (bs : list balance_row) :
  net_reduced bs ->
  forall g g0, net_reduced_at g bs /\ net_reduced_at g0 bs.
Proof. intros H g g0. split; apply H. Qed.

Lemma add_expense_keeps (db : DB) (expense_id : string) (now : nat)
      (data : expense_data) :
  net_reduced (balances db) ->
  net_reduced (balances (fst (add_expense db expense_id now data))).
Proof.
  intro H. unfold add_expense.
  destruct (GroupService.get_group _ _); [|exact H].
  destruct (negb (existsb _ _)); [exact H|].
  destruct (negb (fst _)); [exact H|].
  destruct (negb (valid _)); [exact H|].
  destruct (calculate_splits _ _ _) as [cs|e]; [|exact H].
  cbn [fst]. intro g0.
  apply (balance_updates_both (d_groupId data) g0).
  apply net_reduced_pair. exact H.
Qed.

Lemma recalculate_keeps (db : DB) (g : string) :
  net_reduced (balances db) ->
  net_reduced (balances (fst (recalculate_group_balances db g))).
Proof.
  intros H g0. apply (recalculate_both g g0). apply net_reduced_pair. exact H.
Qed.

Lemma delete_expense_keeps (db : DB) (expense_id : string) :
  net_reduced (balances db) ->
  net_reduced (balances (fst (delete_expense db expense_id))).
Proof.
  intro H. unfold delete_expense.
  destruct (get_expense db expense_id) as [x|]; [|exact H].
  pose proof (recalculate_keeps
                (with_expenses db
                   (filter (fun r => negb (String.eqb (e_id r) expense_id))
                           (expenses db)))
                (x_groupId x) H) as H2.
  destruct (recalculate_group_balances _ _) as [db2 [u|e]]; exact H2.
Qed.

Lemma record_settlement_keeps (db : DB) (settlement_id : string)
      (data : SettlementService.settlement_data) :
  net_reduced (balances db) ->
  net_reduced
    (balances (fst (SettlementService.record_settlement db settlement_id data))).
Proof.
  intro H. unfold SettlementService.record_settlement.
  destruct (GroupService.get_group _ _); [|exact H].
  destruct (_ || _); [exact H|].
  destruct (_ <=? 0); [exact H|].
  destruct (0 <=? _); [exact H|].
  destruct (_ <=? 0); [exact H|].
  destruct (_ <? _); [exact H|].
  cbn [fst]. apply apply_smart_settlement_keeps. exact H.
Qed.

Lemma reachable_net_reduced (db : DB) :
  reachable db -> net_reduced (balances db).
Proof.
  induction 1 as [gs ms|db ev Hreach IH].
  - intro g. split; simpl; intros; contradiction.
  - destruct ev; simpl.
    + apply add_expense_keeps, IH.
    + apply record_settlement_keeps, IH.
    + apply delete_expense_keeps, IH.
    + apply recalculate_keeps, IH.
    + exact IH.
Qed.

Lemma owes_row (db : DB) (g a b : string) :
  owes db g a b = true ->
  exists r, In r (balances db) /\ key_match g a b r = true
            /\ 0 < Store.amount r.
Proof.
  unfold owes. intro H. apply existsb_exists in H.
  destruct H as (r & Hin & Hc). apply andb_true_iff in Hc.
  destruct Hc as [Hk Ha]. apply Qltb_lt in Ha. exists r. auto.
Qed.

Lemma net_reduced_one_direction (db : DB) (g a b : string) :
  net_reduced (balances db) -> owes db g a b && owes db g b a = false.
Proof.
  intro H.
  destruct (owes db g a b) eqn:E1; [|reflexivity].
  destruct (owes db g b a) eqn:E2; [|reflexivity].
  exfalso.
  apply owes_row in E1. destruct E1 as (r & Hin & Hk & _).
  apply owes_row in E2. destruct E2 as (r' & Hin' & Hk' & _).
  apply key_match_iff in Hk. destruct Hk as (Hg & Hf & Ht).
  apply key_match_iff in Hk'. destruct Hk' as (Hg' & Hf' & Ht').
  destruct (H g) as [_ Hr].
  apply (Hr r r' Hin Hin' Hg). unfold reverse_of. repeat split; congruence.
Qed.

End Reachability.

(** ** Claims about the stored balances *)

Section StoredBalances.
Import ExpenseService BalanceService Ledger.

Lemma after_dinner_reachable : reachable Scenario.after_dinner.
Proof.
  apply (reach_step _ (AddExpense Scenario.e1 1 Scenario.dinner)).
  apply reach_empty.
Qed.

(** C1.  In every ledger reached from an empty one by adding expenses,
    recording settlements, deleting expenses and recalculating (and by
    changes of group membership), no group stores a positive balance from
    [a] to [b] together with a positive balance from [b] to [a]. *)
Theorem ledger_never_stores_both_directions :
  forall db, reachable db ->
  forall g a b, owes db g a b && owes db g b a = false.
Proof.
  intros db Hreach g a b.
  apply net_reduced_one_direction, reachable_net_reduced, Hreach.
Qed.

Lemma ledger_never_stores_both_directions_witness :
  reachable Scenario.after_dinner
  /\ owes Scenario.after_dinner Scenario.pair Scenario.bob Scenario.alice = true
  /\ owes Scenario.after_dinner Scenario.pair Scenario.bob Scenario.alice
     && owes Scenario.after_dinner Scenario.pair Scenario.alice Scenario.bob = false.
Proof.
  split; [exact after_dinner_reachable|].
  split; [vm_compute; reflexivity|].
  apply (ledger_never_stores_both_directions _ after_dinner_reachable).
Defined.

Lemma find_set_delete (db : DB) (g f t : string) (a : Q) :
  a <= 0 -> find (key_match g f t) (balances (set_balance db g f t a)) = None.
Proof.
  intro Ha. unfold set_balance. simpl.
  destruct (Qltb_spec 0 a) as [Hpos|_].
  - exfalso. apply (Qlt_not_le _ _ Hpos Ha).
  - apply find_none_filter.
Qed.

Lemma after_crumbs_reachable : reachable Scenario.after_crumbs.
Proof.
  apply (reach_step _ (AddExpense Scenario.e1 1 Scenario.crumbs)).
  apply reach_empty.
Qed.

(** C10, as stated, fails in its last part: after an EXACT expense of 0.004
    the stored balance is 0.004, and [get_group_balances] reports it with
    the amount rounded to 0.00, which is not positive. *)
Lemma get_group_balances_reports_zero :
  reachable Scenario.after_crumbs
  /\ balances Scenario.after_crumbs
     = [mk_balance_row Scenario.pair Scenario.bob Scenario.alice (4 # 1000)]
  /\ get_group_balances Scenario.after_crumbs Scenario.pair
     = [mk_balance Scenario.pair Scenario.bob Scenario.alice (0 # 100)]
  /\ ~ (forall b, In b (get_group_balances Scenario.after_crumbs Scenario.pair) ->
                  0 < b_amount b).
Proof.
  split; [exact after_crumbs_reachable|].
  split; [vm_compute; reflexivity|].
  split; [vm_compute; reflexivity|].
  intro H.
  specialize (H (mk_balance Scenario.pair Scenario.bob Scenario.alice (0 # 100))).
  assert (Hin : In (mk_balance Scenario.pair Scenario.bob Scenario.alice (0 # 100))
                   (get_group_balances Scenario.after_crumbs Scenario.pair)).
  { vm_compute. left. reflexivity. }
  specialize (H Hin). simpl in H. apply (Qlt_irrefl 0). exact H.
Qed.

(** C10, amended.  Every stored directed-balance record of a reachable
    ledger has a positive amount; [set_balance] with an amount that is zero
    or negative leaves no record under the key, and with any amount leaves
    only positive records in a table of positive records;
    [get_group_balances] returns exactly the images of the group's records
    with a positive stored amount, each with that amount rounded to two
    decimals, which is never negative (and is zero below half a cent). *)
Theorem stored_amounts_positive :
  (forall db, reachable db -> all_positive (balances db))
  /\ (forall db g f t a, a <= 0 ->
        find (key_match g f t) (balances (set_balance db g f t a)) = None)
  /\ (forall db g f t a, all_positive (balances db) ->
        all_positive (balances (set_balance db g f t a)))
  /\ (forall db g b, In b (get_group_balances db g) ->
        exists r, In r (balances db) /\ group_id r = g
                  /\ 0 < Store.amount r
                  /\ b = map_row_to_balance r
                  /\ 0 <= b_amount b).
Proof.
  split; [|split; [|split]].
  - intros db H. apply net_reduced_all_positive, reachable_net_reduced, H.
  - intros. apply find_set_delete. assumption.
  - intros db g f t a Hp r Hin. apply In_set_balance in Hin.
    destruct Hin as [[Hin _]|[Ha ->]]; [apply Hp, Hin|exact Ha].
  - intros db g b Hin. apply get_group_balances_stored in Hin.
    destruct Hin as (r & Hin & Hg & Ha & ->).
    exists r. repeat split; try assumption.
    simpl. apply round2_nonneg. apply Qlt_le_weak. exact Ha.
Qed.

Lemma stored_amounts_positive_witness :
  all_positive (balances Scenario.after_crumbs)
  /\ find (key_match Scenario.pair Scenario.bob Scenario.alice)
          (balances (set_balance Scenario.after_crumbs Scenario.pair Scenario.bob
                                 Scenario.alice (- (1 # 2)))) = None
  /\ all_positive
       (balances (set_balance Scenario.after_crumbs Scenario.pair Scenario.bob
                              Scenario.alice 7))
  /\ exists r, In r (balances Scenario.after_crumbs) /\ group_id r = Scenario.pair
               /\ 0 < Store.amount r
               /\ mk_balance Scenario.pair Scenario.bob Scenario.alice (0 # 100)
                  = map_row_to_balance r
               /\ 0 <= b_amount (mk_balance Scenario.pair Scenario.bob Scenario.alice
                                            (0 # 100)).
Proof.
  destruct stored_amounts_positive as (H1 & H2 & H3 & H4).
  split; [apply H1, after_crumbs_reachable|].
  split; [apply H2; vm_compute; discriminate|].
  split; [apply H3, H1, after_crumbs_reachable|].
  apply H4. vm_compute. left. reflexivity.
Defined.

(** C2.  [update_balance] nets a transfer of [delta > 0] from [debtor] to
    [creditor] against the stored reverse balance: a larger reverse balance
    is lowered by [delta] and the forward direction is left alone; a
    smaller positive one is deleted and the forward balance becomes the
    difference; an equal one is deleted and no forward record appears; with
    no reverse balance the forward balance grows by [delta], the record
    being created when absent. *)
Theorem update_balance_nets (db : DB) (g debtor creditor : string) (delta : Q) :
  0 < delta -> debtor <> creditor ->
  let reverse := get_balance_between_users db g creditor debtor in
  let current := get_balance_between_users db g debtor creditor in
  let db' := update_balance db g debtor creditor delta in
  (delta < reverse ->
     get_balance_between_users db' g creditor debtor = reverse - delta
     /\ find (key_match g debtor creditor) (balances db')
        = find (key_match g debtor creditor) (balances db))
  /\ (0 < reverse -> reverse < delta ->
        find (key_match g creditor debtor) (balances db') = None
        /\ get_balance_between_users db' g debtor creditor = delta - reverse)
  /\ (0 < reverse -> reverse == delta ->
        find (key_match g creditor debtor) (balances db') = None
        /\ find (key_match g debtor creditor) (balances db')
           = find (key_match g debtor creditor) (balances db))
  /\ (reverse == 0 -> 0 <= current ->
        find (key_match g debtor creditor) (balances db')
        = Some (mk_balance_row g debtor creditor (current + delta))
        /\ get_balance_between_users db' g debtor creditor = current + delta).
Proof.
  intros Hdelta Hne reverse current db'.
  assert (Kcd : other_key g creditor debtor g debtor creditor).
  { right. left. congruence. }
  assert (Kdc : other_key g debtor creditor g creditor debtor).
  { right. left. exact Hne. }
  subst db'. unfold update_balance. fold reverse. fold current.
  split; [|split; [|split]].
  - intro Hlt.
    assert (Hpos : 0 < reverse) by lra.
    destruct (Qltb_spec 0 reverse); [|contradiction].
    destruct (Qltb_spec delta reverse); [|contradiction].
    split.
    + rewrite get_set_same.
      destruct (Qltb_spec 0 (reverse - delta)) as [_|Hn]; [reflexivity|].
      exfalso. apply Hn. lra.
    + apply find_set_other. exact Kcd.
  - intros Hpos Hlt.
    destruct (Qltb_spec 0 reverse); [|contradiction].
    destruct (Qltb_spec delta reverse) as [Habs|_]; [lra|].
    destruct (Qltb_spec reverse delta); [|contradiction].
    split.
    + rewrite (find_set_other _ _ _ _ _ _ _ _ Kdc).
      apply find_set_delete. apply Qle_refl.
    + rewrite get_set_same.
      destruct (Qltb_spec 0 (delta - reverse)) as [_|Hn]; [reflexivity|].
      exfalso. apply Hn. lra.
  - intros Hpos Heq.
    destruct (Qltb_spec 0 reverse); [|contradiction].
    destruct (Qltb_spec delta reverse) as [Habs|_]; [lra|].
    destruct (Qltb_spec reverse delta) as [Habs|_]; [lra|].
    split.
    + apply find_set_delete. apply Qle_refl.
    + apply find_set_other. exact Kcd.
  - intros Hzero Hcur.
    destruct (Qltb_spec 0 reverse) as [Habs|_]; [lra|].
    assert (Hnew : (0 <? current + delta) = true) by (apply Qltb_lt; lra).
    split.
    + unfold set_balance. simpl. rewrite Hnew.
      apply find_app_hit; [apply find_none_filter|apply key_match_row].
    + rewrite get_set_same, Hnew. reflexivity.
Qed.

Lemma update_balance_nets_witness :
  get_balance_between_users
    (update_balance Scenario.after_dinner Scenario.pair Scenario.alice Scenario.bob 20)
    Scenario.pair Scenario.bob Scenario.alice
  = get_balance_between_users Scenario.after_dinner Scenario.pair
      Scenario.bob Scenario.alice - 20
  /\ get_balance_between_users
       (update_balance Scenario.after_dinner Scenario.pair Scenario.bob Scenario.alice 20)
       Scenario.pair Scenario.bob Scenario.alice
     = get_balance_between_users Scenario.after_dinner Scenario.pair
         Scenario.bob Scenario.alice + 20.
Proof.
  split.
  - assert (H0 : 0 < 20) by reflexivity.
    assert (Hne : Scenario.alice <> Scenario.bob) by discriminate.
    destruct (update_balance_nets Scenario.after_dinner Scenario.pair
                Scenario.alice Scenario.bob 20 H0 Hne) as (H1 & _).
    apply H1. vm_compute. reflexivity.
  - assert (H0 : 0 < 20) by reflexivity.
    assert (Hne : Scenario.bob <> Scenario.alice) by discriminate.
    destruct (update_balance_nets Scenario.after_dinner Scenario.pair
                Scenario.bob Scenario.alice 20 H0 Hne) as (_ & _ & _ & H4).
    apply H4; vm_compute; [reflexivity|discriminate].
Defined.

End StoredBalances.

(** ** Claims about settlements *)

Section Settlements.
Import BalanceService SettlementService Ledger.

(** The bound [min(|net(from)|, |net(to)|)] that [record_settlement]
    computes. *)
Let max_allowed (db : DB) (data : settlement_data) : Q :=
  let all_balances := get_group_balances db (d_groupId data) in
  Qmin (Qabs (user_net all_balances (d_fromUserId data)))
       (Qabs (user_net all_balances (d_toUserId data))).




Lemma round2_fifty (a : Q) : a == 50 -> round2 a = 5000 # 100.
Proof.
intro Ha. unfold round2.
assert (E : a * 100 == inject_Z 5000) by (rewrite Ha; reflexivity).
rewrite (round_half_even_compat _ _ E), round_half_even_inject. reflexivity.
Qed.

(** C6.  In a group with members Alice and Bob whose only balance record is
    Bob -> Alice of 50, as left by a dinner of 100 that Alice paid and both
    share equally, the settlement of 50 from Bob to Alice is accepted;
    afterwards no balance record is stored, none is reported for the group,
    and the net positions of Bob and of Alice are zero. *)
Theorem settlement_in_full_clears_the_pair
        (db : DB) (g alice bob settlement_id : string) (a : Q)
        (member_ids : list string) :
  GroupService.get_group db g = Some member_ids ->
  existsb (String.eqb alice) member_ids = true ->
  existsb (String.eqb bob) member_ids = true ->
  alice <> bob ->
  balances db = [mk_balance_row g bob alice a] ->
  a == 50 ->
  let outcome :=
    record_settlement db settlement_id (mk_settlement_data g bob alice 50) in
  (exists res, snd outcome = Ok res /\ remainingBalance res == 0)
  /\ balances (fst outcome) = []
  /\ get_group_balances (fst outcome) g = []
  /\ user_net (get_group_balances (fst outcome) g) bob == 0
  /\ user_net (get_group_balances (fst outcome) g) alice == 0
  /\ Design.stored_net (fst outcome) g bob == 0
  /\ Design.stored_net (fst outcome) g alice == 0.
Proof.
intros Hg Ha Hb Hne Hbal Hfifty outcome.
assert (Hba : String.eqb bob alice = false).
{ apply String.eqb_neq. congruence. }
assert (Hpos : (0 <? a) = true) by (apply Qltb_lt; rewrite Hfifty; reflexivity).
assert (Hgb : forall d, balances d = balances db ->
                get_group_balances d g = [mk_balance g bob alice (5000 # 100)]).
{ intros d Hd. unfold get_group_balances. rewrite Hd, Hbal. simpl.
  rewrite String.eqb_refl, Hpos. simpl. unfold map_row_to_balance. simpl.
  rewrite (round2_fifty a Hfifty). reflexivity. }
assert (Hout : outcome
               = (with_balances
                    (with_settlements db
                       (settlements db ++
                        [mk_settlement_row settlement_id g bob alice 50])) [],
                  Ok (mk_settlement_result
                        (get_settlement
                           (with_balances
                              (with_settlements db
                                 (settlements db ++
                                  [mk_settlement_row settlement_id g bob alice 50]))
                              []) settlement_id)
                        (round2 0)))).
{ subst outcome. unfold record_settlement.
  cbn [d_groupId d_fromUserId d_toUserId d_amount].
  rewrite Hg, Ha, Hb. cbn [negb orb].
  rewrite (Hgb db eq_refl).
  unfold user_net. cbn [fold_left BalanceService.fromUserId BalanceService.toUserId
                        b_amount].
  rewrite String.eqb_refl, Hba, String.eqb_refl.
  change (50 <=? 0) with false.
  change (0 <=? 0 - (5000 # 100)) with false.
  change (0 + (5000 # 100) <=? 0) with false.
  change (Qmin (Qabs (0 - (5000 # 100))) (Qabs (0 + (5000 # 100))) + cent <? 50)
    with false.
  cbv iota.
  unfold apply_smart_settlement.
  rewrite (Hgb (with_settlements db
                  (settlements db ++
                   [mk_settlement_row settlement_id g bob alice 50])) eq_refl).
  cbn [filter BalanceService.fromUserId BalanceService.toUserId].
  rewrite !String.eqb_refl.
  cbn [map b_amount].
  change (0 <? py_sum [5000 # 100]) with true. cbv iota.
  cbn [reduce_in_order b_amount BalanceService.fromUserId BalanceService.toUserId].
  change (50 <=? 0) with false. cbv iota.
  unfold set_balance at 2.
  change (0 <? (5000 # 100) - Qmin (5000 # 100) 50) with false. cbv iota.
  cbn [balances with_settlements with_balances]. rewrite Hbal.
  cbn [filter]. rewrite key_match_row. cbn [negb].
  unfold set_balance. cbn [balances with_balances filter].
  change (0 <? (5000 # 100) - Qmin (5000 # 100) 50) with false. cbv iota.
  unfold with_balances, with_settlements, get_group_balances.
  cbn [balances expenses expense_splits settlements groups group_members].
  rewrite ?Hbal. cbn [filter]. rewrite ?key_match_row. cbn.
  reflexivity. }
rewrite Hout. cbn [fst snd].
split; [eexists; split; [reflexivity|reflexivity]|].
split; [reflexivity|].
unfold get_group_balances, Design.stored_net. cbn.
repeat split; reflexivity.
Qed.

Lemma settlement_in_full_clears_the_pair_witness :
  let outcome :=
    record_settlement Scenario.after_dinner Scenario.s1
      (mk_settlement_data Scenario.pair Scenario.bob Scenario.alice 50) in
  (exists res, snd outcome = Ok res /\ remainingBalance res == 0)
  /\ balances (fst outcome) = []
  /\ get_group_balances (fst outcome) Scenario.pair = []
  /\ user_net (get_group_balances (fst outcome) Scenario.pair) Scenario.bob == 0
  /\ user_net (get_group_balances (fst outcome) Scenario.pair) Scenario.alice == 0
  /\ Design.stored_net (fst outcome) Scenario.pair Scenario.bob == 0
  /\ Design.stored_net (fst outcome) Scenario.pair Scenario.alice == 0.
Proof.
apply (settlement_in_full_clears_the_pair Scenario.after_dinner Scenario.pair
         Scenario.alice Scenario.bob Scenario.s1 (5000 # 100)
         [Scenario.alice; Scenario.bob]).
- vm_compute. reflexivity.
- vm_compute. reflexivity.
- vm_compute. reflexivity.
- discriminate.
- vm_compute. reflexivity.
- vm_compute. reflexivity.
Defined.

End Settlements.

(** ** Claims about recalculation *)

Section Recalculation.
Import ExpenseService BalanceService Ledger.

Variable g : string.

Lemma differs_refl (d : DB) : differs_only_in_group g d d.
Proof. split; [destruct d; reflexivity|reflexivity]. Qed.

Lemma differs_trans (d1 d2 d3 : DB) :
  differs_only_in_group g d1 d2 -> differs_only_in_group g d2 d3 ->
  differs_only_in_group g d1 d3.
Proof.
intros [E1 F1] [E2 F2]. split.
- rewrite E2 at 1. rewrite E1. reflexivity.
- rewrite F2. exact F1.
Qed.

Lemma filter_absorb {A : Type} (p q : A -> bool) (l : list A) :
  (forall x, p x = true -> q x = true) ->
  filter p (filter q l) = filter p l.
Proof.
intro H. induction l as [|x l IH]; simpl; [reflexivity|].
destruct (p x) eqn:Ep.
- rewrite (H x Ep). simpl. rewrite Ep, IH. reflexivity.
- destruct (q x); simpl; [rewrite Ep|]; exact IH.
Qed.

Lemma set_balance_differs (d : DB) (f t : string) (a : Q) :
  differs_only_in_group g d (set_balance d g f t a).
Proof.
split; [reflexivity|].
unfold set_balance. simpl.
assert (Hk : filter (fun r => negb (String.eqb (group_id r) g))
               (filter (fun r => negb (key_match g f t r)) (balances d))
             = filter (fun r => negb (String.eqb (group_id r) g)) (balances d)).
{ apply filter_absorb. intros r Hr. unfold key_match.
  apply negb_true_iff in Hr. rewrite Hr. reflexivity. }
destruct (0 <? a); [|exact Hk].
rewrite filter_app, Hk. simpl. rewrite String.eqb_refl. simpl.
apply app_nil_r.
Qed.

Lemma update_balance_differs (d : DB) (f t : string) (a : Q) :
  differs_only_in_group g d (update_balance d g f t a).
Proof.
unfold update_balance.
destruct (0 <? _); [destruct (a <? _); [|destruct (_ <? a)]|];
  try apply set_balance_differs.
eapply differs_trans; apply set_balance_differs.
Qed.

Lemma apply_splits_differs (paid_by : string) (cs : list calculated_split) :
  forall d, differs_only_in_group g d (apply_splits d g paid_by cs).
Proof.
unfold apply_splits.
induction cs as [|c cs IH]; intro d; simpl; [apply differs_refl|].
eapply differs_trans; [|apply IH].
destruct (negb _); [apply update_balance_differs|apply differs_refl].
Qed.

Lemma replay_expenses_differs (es : list expense) :
  forall d, differs_only_in_group g d (fst (replay_expenses d g es)).
Proof.
induction es as [|x es IH]; intro d; simpl; [apply differs_refl|].
destruct (calculate_splits _ _ _) as [cs|e]; simpl; [|apply differs_refl].
eapply differs_trans; [apply apply_splits_differs|apply IH].
Qed.

Lemma replay_settlements_differs (sts : list settlement_row) :
  forall d,
    differs_only_in_group g d
      (fold_left replay_settlement
         (filter (fun st => String.eqb (st_group_id st) g) sts) d).
Proof.
induction sts as [|st sts IH]; intro d; simpl; [apply differs_refl|].
destruct (String.eqb_spec (st_group_id st) g) as [E|E]; simpl; [|apply IH].
eapply differs_trans; [|apply IH].
unfold replay_settlement. rewrite E.
destruct (0 <? _); [apply update_balance_differs|apply differs_refl].
Qed.

Lemma clear_group_balances_differs (d : DB) :
  differs_only_in_group g d (clear_group_balances d g).
Proof.
split; [reflexivity|].
unfold clear_group_balances. simpl.
apply filter_absorb. auto.
Qed.

(** What the recalculation does once the group is known to exist. *)
Let rebuild (d1 : DB) : DB * result unit :=
  match replay_expenses d1 g (get_group_expenses d1 g) with
  | (db2, Raise e) => (db2, Raise e)
  | (db2, Ok _) =>
      (fold_left replay_settlement
         (filter (fun st => String.eqb (st_group_id st) g) (settlements db2))
         db2, Ok tt)
  end.

Lemma rebuild_differs (d1 : DB) : differs_only_in_group g d1 (fst (rebuild d1)).
Proof.
unfold rebuild.
pose proof (replay_expenses_differs (get_group_expenses d1 g) d1) as H.
destruct (replay_expenses d1 g _) as [db2 [u|e]]; simpl in *; [|exact H].
eapply differs_trans; [exact H|apply replay_settlements_differs].
Qed.

Lemma differs_clear (d d' : DB) :
  differs_only_in_group g d d' ->
  clear_group_balances d' g = clear_group_balances d g.
Proof.
intros [E F]. unfold clear_group_balances. rewrite F. rewrite E.
reflexivity.
Qed.

Lemma differs_get_group (d d' : DB) :
  differs_only_in_group g d d' ->
  GroupService.get_group d' g = GroupService.get_group d g.
Proof. intros [E _]. rewrite E. reflexivity. Qed.

(** C7.  Recalculating a group twice in a row gives what recalculating it
    once gives: the database after the second call, and its outcome, are
    those of the first call. *)
Theorem recalculate_twice (db : DB) :
  recalculate_group_balances (fst (recalculate_group_balances db g)) g
  = recalculate_group_balances db g.
Proof.
assert (Hr : forall d, recalculate_group_balances d g
                       = match GroupService.get_group d g with
                         | None => (d, Raise GroupNotFound)
                         | Some _ => rebuild (clear_group_balances d g)
                         end) by reflexivity.
rewrite (Hr db).
destruct (GroupService.get_group db g) as [ms|] eqn:Eg.
- assert (Hd : differs_only_in_group g db
                 (fst (rebuild (clear_group_balances db g)))).
  { eapply differs_trans;
      [apply clear_group_balances_differs|apply rebuild_differs]. }
  rewrite Hr, (differs_get_group _ _ Hd), Eg, (differs_clear _ _ Hd).
  reflexivity.
- simpl. rewrite Hr, Eg. reflexivity.
Qed.

Lemma clear_net_reduced_at (db : DB) :
  net_reduced_at g (balances (clear_group_balances db g)).
Proof.
assert (H : forall r, In r (balances (clear_group_balances db g)) ->
                      group_id r <> g).
{ intros r Hin. unfold clear_group_balances in Hin. simpl in Hin.
  apply filter_In in Hin. destruct Hin as [_ Hn].
  apply negb_true_iff, String.eqb_neq in Hn. exact Hn. }
split.
- intros r Hin Hg. exfalso. apply (H r Hin Hg).
- intros r r' Hin _ Hg. exfalso. apply (H r Hin Hg).
Qed.

(** In a net-reduced group the replay of a settlement through
    [update_balance] with a negative amount is the plain reduction. *)
Lemma replay_is_reversal (d : DB) (st : settlement_row) :
  st_group_id st = g -> net_reduced_at g (balances d) ->
  replay_settlement d st = Design.reverse_settlement d st.
Proof.
intros Hg Hnr. unfold replay_settlement, Design.reverse_settlement.
rewrite Hg.
destruct (Qltb_spec 0 (get_balance_between_users d g (st_from_user_id st)
                         (st_to_user_id st))) as [Hpos|_]; [|reflexivity].
destruct (get_positive_row d g _ _ Hpos) as (r0 & Hin0 & Hk0).
assert (Hrev : get_balance_between_users d g (st_to_user_id st)
                 (st_from_user_id st) = 0).
{ unfold get_balance_between_users.
  destruct (find _ (balances d)) as [r|] eqn:E; [|reflexivity].
  apply find_some in E. destruct E as [Hin Hk].
  pose proof (stored_excludes_reverse g _ _ _ r0 Hnr Hin0 Hk0 r Hin).
  congruence. }
unfold update_balance. rewrite Hrev.
change (0 <? 0) with false. cbv iota. reflexivity.
Qed.

Lemma replay_settlements_are_reversals (sts : list settlement_row) :
  forall d, net_reduced_at g (balances d) ->
    fold_left replay_settlement
      (filter (fun st => String.eqb (st_group_id st) g) sts) d
    = fold_left Design.reverse_settlement
        (filter (fun st => String.eqb (st_group_id st) g) sts) d.
Proof.
induction sts as [|st sts IH]; intros d H; simpl; [reflexivity|].
destruct (String.eqb_spec (st_group_id st) g) as [E|E]; simpl; [|apply IH, H].
rewrite <- (replay_is_reversal d st E H).
apply IH. apply (replay_settlement_both g g st d E). split; exact H.
Qed.

Lemma apply_splits_non_payers (paid_by : string) (cs : list calculated_split) :
  forall d,
    apply_splits d g paid_by cs
    = fold_left
        (fun d c => update_balance d g (c_userId c) paid_by (c_amount c))
        (filter (fun c => negb (String.eqb (c_userId c) paid_by)) cs) d.
Proof.
unfold apply_splits.
induction cs as [|c cs IH]; intro d; simpl; [reflexivity|].
destruct (negb _); simpl; apply IH.
Qed.

Lemma replay_expenses_in_order (es : list expense) :
  forall d, replay_expenses d g es = Design.replay_in_order d g es.
Proof.
induction es as [|x es IH]; intro d; simpl; [reflexivity|].
unfold Design.replay_expense.
destruct (calculate_splits _ _ _) as [cs|e]; [|reflexivity].
rewrite <- apply_splits_non_payers. apply IH.
Qed.

Lemma insert_newest_first_In (x z : expense_row) (l : list expense_row) :
  In z (insert_newest_first x l) <-> z = x \/ In z l.
Proof.
induction l as [|y l IH]; simpl.
- intuition.
- destruct (Nat.leb _ _); simpl; [intuition|].
  rewrite IH. intuition.
Qed.

Lemma insert_newest_first_sorted (x : expense_row) (l : list expense_row) :
  StronglySorted (fun a b => (e_created_at b <= e_created_at a)%nat) l ->
  StronglySorted (fun a b => (e_created_at b <= e_created_at a)%nat)
                 (insert_newest_first x l).
Proof.
induction 1 as [|y l Hs IH Hall]; simpl.
- constructor; constructor.
- destruct (Nat.leb_spec (e_created_at y) (e_created_at x)) as [Hle|Hgt].
  + constructor; [constructor; assumption|].
    constructor; [exact Hle|].
    rewrite Forall_forall in *. intros z Hz. specialize (Hall z Hz). lia.
  + constructor; [exact IH|].
    rewrite Forall_forall in *. intros z Hz.
    apply insert_newest_first_In in Hz. destruct Hz as [->|Hz]; [lia|auto].
Qed.

Lemma order_by_created_at_desc_sorted (rows : list expense_row) :
  StronglySorted (fun a b => (e_created_at b <= e_created_at a)%nat)
                 (order_by_created_at_desc rows).
Proof.
induction rows as [|x rows IH]; simpl; [constructor|].
apply insert_newest_first_sorted, IH.
Qed.

Lemma insert_newest_first_perm (x : expense_row) (l : list expense_row) :
  Permutation (insert_newest_first x l) (x :: l).
Proof.
induction l as [|y l IH]; simpl; [reflexivity|].
destruct (Nat.leb _ _); [reflexivity|].
rewrite IH. apply perm_swap.
Qed.

Lemma order_by_created_at_desc_perm (rows : list expense_row) :
  Permutation (order_by_created_at_desc rows) rows.
Proof.
induction rows as [|x rows IH]; simpl; [reflexivity|].
rewrite insert_newest_first_perm. constructor. exact IH.
Qed.

Lemma StronglySorted_map {A B : Type} (f : A -> B) (R : B -> B -> Prop)
      (l : list A) :
  StronglySorted (fun a b => R (f a) (f b)) l -> StronglySorted R (map f l).
Proof.
induction 1 as [|x l Hs IH Hall]; simpl; constructor; [exact IH|].
rewrite Forall_forall in *. intros z Hz.
apply in_map_iff in Hz. destruct Hz as (y & <- & Hy). auto.
Qed.

(** C4, amended.  Recalculation clears the group's balances, replays every
    surviving expense once, newest first (descending creation time, the
    order in which [get_group_expenses] lists them), recomputing its splits
    and calling [update_balance] once per participant other than the payer,
    and then replays every settlement of the group as a reversal: a positive
    [from -> to] balance is lowered by [min(amount, balance)], and without
    one the ledger is left as it is. *)
Theorem recalculate_replays_newest_first (db : DB) :
  recalculate_group_balances db g
  = Design.recalculate_over get_group_expenses db g
  /\ Design.newest_first (get_group_expenses db g)
  /\ Permutation (get_group_expenses db g) (Design.surviving_expenses db g).
Proof.
split; [|split].
- unfold recalculate_group_balances, Design.recalculate_over.
  destruct (GroupService.get_group db g); [|reflexivity].
  rewrite <- replay_expenses_in_order.
  pose proof (replay_expenses_both g g
                (get_group_expenses (clear_group_balances db g) g)
                (clear_group_balances db g)
                (conj (clear_net_reduced_at db) (clear_net_reduced_at db)))
    as [Hnr _].
  destruct (replay_expenses _ g _) as [db2 [u|e]]; [|reflexivity].
  simpl in Hnr. rewrite (replay_settlements_are_reversals _ _ Hnr).
  reflexivity.
- unfold Design.newest_first, get_group_expenses.
  apply StronglySorted_map. simpl.
  apply order_by_created_at_desc_sorted.
- unfold get_group_expenses, Design.surviving_expenses.
  apply Permutation_map, order_by_created_at_desc_perm.
Qed.

End Recalculation.

Section ReplayOrder.
Import ExpenseService BalanceService Ledger.

(** C4, as stated, fails on the order of the replay.  Alice pays 10 for Bob
    and later 10 for Carol.  Recalculation replays the later expense first
    and stores Carol's record before Bob's; a replay in creation order
    stores Bob's before Carol's.  The stored order matters: a settlement of
    5 from Bob to Alice then takes 5 off the first record owed to Alice,
    Carol's in one ledger and Bob's in the other. *)
Lemma recalculation_does_not_replay_in_creation_order :
  let db := Scenario.after_taxi_and_lunch in
  let by_code := fst (recalculate_group_balances db Scenario.trio) in
  let by_creation :=
    fst (Design.recalculate_over Design.expenses_in_creation_order
           db Scenario.trio) in
  let settle d :=
    fst (SettlementService.record_settlement d Scenario.s1
           (SettlementService.mk_settlement_data Scenario.trio Scenario.bob
              Scenario.alice 5)) in
  map ExpenseService.id (get_group_expenses db Scenario.trio)
  = [Scenario.e2; Scenario.e1]
  /\ map ExpenseService.id (Design.expenses_in_creation_order db Scenario.trio)
     = [Scenario.e1; Scenario.e2]
  /\ balances by_code
     = [mk_balance_row Scenario.trio Scenario.carol Scenario.alice 10;
        mk_balance_row Scenario.trio Scenario.bob Scenario.alice 10]
  /\ balances by_creation
     = [mk_balance_row Scenario.trio Scenario.bob Scenario.alice 10;
        mk_balance_row Scenario.trio Scenario.carol Scenario.alice 10]
  /\ recalculate_group_balances db Scenario.trio
     <> Design.recalculate_over Design.expenses_in_creation_order
          db Scenario.trio
  /\ get_balance_between_users (settle by_code) Scenario.trio
       Scenario.carol Scenario.alice == 5
  /\ get_balance_between_users (settle by_creation) Scenario.trio
       Scenario.carol Scenario.alice == 10.
Proof.
cbv zeta.
split; [vm_compute; reflexivity|].
split; [vm_compute; reflexivity|].
split; [vm_compute; reflexivity|].
split; [vm_compute; reflexivity|].
split; [|split; vm_compute; reflexivity].
intro H. apply (f_equal (fun p => map from_user_id (balances (fst p)))) in H.
vm_compute in H. discriminate H.
Qed.

End ReplayOrder.

(** ** Claims about the split calculator *)

Section Splits.
Import ExpenseService.

Lemma fold_left_Qplus (l : list Q) (a : Q) :
  fold_left Qplus l a == a + py_sum l.
Proof.
unfold py_sum. revert a.
induction l as [|x l IH]; intro a; simpl.
- ring.
- rewrite (IH (a + x)), (IH (0 + x)). ring.
Qed.

Lemma py_sum_cons (x : Q) (l : list Q) : py_sum (x :: l) == x + py_sum l.
Proof.
unfold py_sum at 1. simpl. rewrite fold_left_Qplus. ring.
Qed.

Lemma py_sum_nil : py_sum [] = 0.
Proof. reflexivity. Qed.

Lemma count_cons {A : Type} (x : A) (l : list A) : count (x :: l) == 1 + count l.
Proof.
unfold count. simpl List.length. rewrite Nat2Z.inj_succ, <- Z.add_1_l.
rewrite inject_Z_plus. reflexivity.
Qed.

Lemma count_nonneg {A : Type} (l : list A) : 0 <= count l.
Proof.
unfold count. change 0 with (inject_Z 0). rewrite <- Zle_Qle. lia.
Qed.

Lemma count_pos {A : Type} (l : list A) : l <> [] -> 0 < count l.
Proof.
destruct l as [|x l]; [congruence|]. intros _.
rewrite count_cons. pose proof (count_nonneg l). lra.
Qed.













End Splits.

(** ** Claims about the simplifier *)

Section WholeCents.


Lemma whole_cents_zero : whole_cents 0.
Proof. exists 0%Z. reflexivity. Qed.

Lemma whole_cents_plus (x y : Q) :
  whole_cents x -> whole_cents y -> whole_cents (x + y).
Proof.
intros [a Ha] [b Hb]. exists (a + b)%Z.
rewrite Ha, Hb. unfold Qeq, Qplus. simpl. lia.
Qed.

Lemma whole_cents_opp (x : Q) : whole_cents x -> whole_cents (- x).
Proof.
intros [a Ha]. exists (- a)%Z.
rewrite Ha. unfold Qeq, Qopp. simpl. lia.
Qed.

Lemma whole_cents_minus (x y : Q) :
  whole_cents x -> whole_cents y -> whole_cents (x - y).
Proof.
intros Hx Hy. apply whole_cents_plus; [exact Hx|apply whole_cents_opp, Hy].
Qed.


Lemma whole_cents_positive (x : Q) : whole_cents x -> 0 < x -> cent <= x.
Proof.
intros [z Hz] H0. rewrite Hz in *.
unfold Qle, Qlt, cent in *. simpl in *. lia.
Qed.

End WholeCents.

Section NetDict.
Import BalanceService.

Import Design.

Lemma share_of_cons (k : string) (n : Q) (l : list (string * Q)) (u : string) :
  Design.share_of ((k, n) :: l) u
  == pick (String.eqb k u) n + Design.share_of l u.
Proof.
unfold Design.share_of, pick. simpl.
destruct (String.eqb k u); simpl.
- apply py_sum_cons.
- ring.
Qed.

Lemma share_of_nil (u : string) : Design.share_of [] u = 0.
Proof. reflexivity. Qed.

(** Writing [v] under key [k] replaces what the dict held for [k]. *)
Lemma share_of_dict_set (d : list (string * Q)) (k : string) (v : Q) (u : string) :
  Design.share_of (dict_set d k v) u
  == Design.share_of d u
     + pick (String.eqb k u) (v - dict_get d k 0).
Proof.
unfold dict_get.
induction d as [|[k' n] d IH]; simpl.
- rewrite share_of_cons, !share_of_nil. unfold pick.
  destruct (String.eqb k u); ring.
- destruct (String.eqb_spec k' k) as [E|E]; simpl.
  + subst k'. rewrite !share_of_cons. unfold pick.
    destruct (String.eqb k u); ring.
  + rewrite !share_of_cons, IH. ring.
Qed.

Lemma sum_dict_set (d : list (string * Q)) (k : string) (v : Q) :
  py_sum (map snd (dict_set d k v))
  == py_sum (map snd d) + (v - dict_get d k 0).
Proof.
unfold dict_get.
induction d as [|[k' n] d IH]; simpl.
- rewrite py_sum_cons, py_sum_nil. ring.
- destruct (String.eqb_spec k' k) as [E|E]; simpl.
  + rewrite !py_sum_cons. ring.
  + rewrite !py_sum_cons, IH. ring.
Qed.

Lemma dict_set_keys (d : list (string * Q)) (k : string) (v : Q) (k' : string) :
  In k' (map fst (dict_set d k v)) -> k' = k \/ In k' (map fst d).
Proof.
induction d as [|[k0 n] d IH]; simpl.
- intros [H|[]]. left. congruence.
- destruct (String.eqb_spec k0 k) as [E|E]; simpl.
  + intros [H|H]; [left; congruence|right; right; exact H].
  + intros [H|H]; [right; left; exact H|].
    destruct (IH H); [left|right; right]; assumption.
Qed.

Lemma dict_set_NoDup (d : list (string * Q)) (k : string) (v : Q) :
  NoDup (map fst d) -> NoDup (map fst (dict_set d k v)).
Proof.
induction d as [|[k0 n] d IH]; simpl; intro H.
- constructor; [intros []|constructor].
- inversion H as [|? ? Hnotin Hnd]; subst.
  destruct (String.eqb_spec k0 k) as [E|E]; simpl.
  + subst k0. constructor; assumption.
  + constructor; [|apply IH, Hnd].
    intro Hin. apply dict_set_keys in Hin. destruct Hin; [congruence|auto].
Qed.

Lemma dict_get_whole (d : list (string * Q)) (k : string) :
  Forall (fun p => whole_cents (snd p)) d -> whole_cents (dict_get d k 0).
Proof.
intro H. unfold dict_get.
destruct (find _ d) as [p|] eqn:E; [|apply whole_cents_zero].
apply find_some in E. destruct E as [Hin _].
rewrite Forall_forall in H. apply H, Hin.
Qed.

Lemma dict_set_whole (d : list (string * Q)) (k : string) (v : Q) :
  whole_cents v -> Forall (fun p => whole_cents (snd p)) d ->
  Forall (fun p => whole_cents (snd p)) (dict_set d k v).
Proof.
intros Hv. induction 1 as [|p d Hp Hd IH]; simpl.
- constructor; [exact Hv|constructor].
- destruct (String.eqb (fst p) k); constructor; assumption.
Qed.


(** The net dict holds every user's net position, each key once, in whole
    cents when the balances are, and the positions sum to zero. *)
Lemma build_net_spec (bs : list balance) :
  Forall (fun b => whole_cents (b_amount b)) bs ->
  NoDup (map fst (build_net bs))
  /\ Forall (fun p => whole_cents (snd p)) (build_net bs)
  /\ py_sum (map snd (build_net bs)) == 0
  /\ forall u, Design.share_of (build_net bs) u == Design.net bs u.
Proof.
intro Hw. unfold build_net.
assert (G : forall d,
          NoDup (map fst d) ->
          Forall (fun p => whole_cents (snd p)) d ->
          NoDup (map fst (fold_left net_step bs d))
          /\ Forall (fun p => whole_cents (snd p)) (fold_left net_step bs d)
          /\ py_sum (map snd (fold_left net_step bs d)) == py_sum (map snd d)
          /\ forall u, Design.share_of (fold_left net_step bs d) u
                       == Design.share_of d u + Design.net bs u).
{ induction Hw as [|b bs Hb Hbs IH]; intros d Hnd Hd.
  - simpl. split; [exact Hnd|]. split; [exact Hd|]. split; [reflexivity|].
    intro u. unfold Design.net. simpl. rewrite py_sum_nil. ring.
  - simpl fold_left.
    assert (Hd1 : Forall (fun p => whole_cents (snd p))
                    (dict_set d (fromUserId b)
                       (dict_get d (fromUserId b) 0 - b_amount b))).
    { apply dict_set_whole; [|exact Hd].
      apply whole_cents_minus; [apply dict_get_whole, Hd|exact Hb]. }
    destruct (IH (net_step d b)) as (N & W & S & F).
    + unfold net_step. apply dict_set_NoDup, dict_set_NoDup, Hnd.
    + unfold net_step. apply dict_set_whole; [|exact Hd1].
      apply whole_cents_plus; [apply dict_get_whole, Hd1|exact Hb].
    + split; [exact N|]. split; [exact W|]. split.
      * rewrite S. unfold net_step. rewrite !sum_dict_set. ring.
      * intro u. rewrite F. unfold net_step.
        rewrite !share_of_dict_set. unfold Design.net. simpl filter.
        unfold pick.
        destruct (String.eqb (toUserId b) u);
          destruct (String.eqb (fromUserId b) u);
          simpl map; rewrite ?py_sum_cons; ring. }
destruct (G [] (NoDup_nil _) (Forall_nil _)) as (N & W & S & F).
split; [exact N|]. split; [exact W|]. split; [exact S|].
intro u. rewrite F, share_of_nil. ring.
Qed.

End NetDict.

Section Matching.
Import BalanceService Design.

Variable g : string.







End Matching.

Section Simplifier.
Import BalanceService Design Ledger.









Lemma get_group_balances_whole (db : DB) (g : string) :
  Forall (fun b => whole_cents (b_amount b)) (get_group_balances db g).
Proof.
unfold get_group_balances. apply Forall_forall. intros b Hb.
apply in_map_iff in Hb. destruct Hb as (r & <- & _).
simpl. apply round2_is_whole_cents.
Qed.





End Simplifier.

(** ** The scenarios of the design document, run on the embedding *)

Section Scenarios.
Import ExpenseService BalanceService.

(** Scenario 1: the dinner of 100 leaves Bob owing Alice 50.00. *)
Example dinner_leaves_fifty :
  balances Scenario.after_dinner
  = [mk_balance_row Scenario.pair Scenario.bob Scenario.alice (5000 # 100)].
Proof. vm_compute. reflexivity. Qed.

(** Scenario 3: debts to different creditors are not cancelled against each
    other. *)
Example no_transitive_cancellation :
  get_group_balances Scenario.after_cabin_and_fuel Scenario.trio
  = [mk_balance Scenario.trio Scenario.bob Scenario.alice (3000 # 100);
     mk_balance Scenario.trio Scenario.carol Scenario.alice (3000 # 100);
     mk_balance Scenario.trio Scenario.carol Scenario.bob (2000 # 100)].
Proof. vm_compute. reflexivity. Qed.

(** Scenario 5: deleting the cabin expense clears the balances it alone
    produced and leaves Carol's debt to Bob. *)
Example deletion_recalculates :
  delete_expense Scenario.after_cabin_and_fuel Scenario.e1
  = (fst (delete_expense Scenario.after_cabin_and_fuel Scenario.e1), Ok true)
  /\ balances (fst (delete_expense Scenario.after_cabin_and_fuel Scenario.e1))
     = [mk_balance_row Scenario.trio Scenario.carol Scenario.bob 20].
Proof. split; vm_compute; reflexivity. Qed.

End Scenarios.

(** * Further properties of the services *)

(** ** add_expense *)

Section AddExpense.
Import ExpenseService BalanceService Ledger Transfers.

Lemma comprehension_raises {A B : Type} (f : A -> result B) (l : list A)
      (e : error) :
  comprehension f l = Raise e -> exists x, In x l /\ f x = Raise e.
Proof.
induction l as [|x l IH]; simpl; [discriminate|].
destruct (f x) as [y|e'] eqn:E.
- destruct (comprehension f l) as [ys|e'']; [discriminate|].
  intro H. inversion H; subst. destruct (IH eq_refl) as (z & Hz & Hf).
  exists z. auto.
- intro H. inversion H; subst. exists x. auto.
Qed.

(** What [calculate_splits] can raise, and when. *)
Lemma calculate_splits_raises (total : Q) (ty : string) (l : list split)
      (e : error) :
  calculate_splits total ty l = Raise e ->
  (e = ZeroDivisionError /\ l = [])
  \/ e = KeyError \/ e = UnknownSplitType.
Proof.
unfold calculate_splits.
destruct (String.eqb ty SPLIT_TYPE_EQUAL).
{ destruct l; [|discriminate]. intro H. inversion H. auto. }
destruct (String.eqb ty SPLIT_TYPE_EXACT).
{ intro H. apply comprehension_raises in H. destruct H as (x & _ & H).
  destruct (s_amount x); [discriminate|]. inversion H. auto. }
destruct (String.eqb ty SPLIT_TYPE_PERCENTAGE).
{ intro H. apply comprehension_raises in H. destruct H as (x & _ & H).
  destruct (s_percentage x); [discriminate|]. inversion H. auto. }
intro H. inversion H. auto.
Qed.

Lemma valid_nonempty (total : Q) (ty : string) (l : list split) :
  valid (validate_expense total ty l) = true -> l <> [].
Proof.
unfold validate_expense. cbn [valid]. intros H E. subst l.
destruct (total <=? 0); simpl in H; discriminate.
Qed.



Lemma comprehension_Forall2 {A B : Type} (f : A -> result B) (l : list A) :
  forall ys, comprehension f l = Ok ys -> Forall2 (fun x y => f x = Ok y) l ys.
Proof.
induction l as [|x l IH]; simpl; intros ys H.
- inversion H. constructor.
- destruct (f x) as [y|e] eqn:E; [|discriminate].
  destruct (comprehension f l) as [ys'|e]; [|discriminate].
  inversion H; subst. constructor; [exact E|apply IH; reflexivity].
Qed.

Lemma valid_errors_nil (total : Q) (ty : string) (l : list split) :
  valid (validate_expense total ty l) = true ->
  errors (validate_expense total ty l) = [].
Proof.
unfold validate_expense. cbn [valid errors].
destruct (_ ++ _); [reflexivity|discriminate].
Qed.

Lemma share_errors_nil (ty : string) (l : list split) :
  forall i, share_errors ty i l = [] ->
  forall s, In s l ->
    (String.eqb ty SPLIT_TYPE_EXACT && (get_amount s <? 0)) = false
    /\ (String.eqb ty SPLIT_TYPE_PERCENTAGE && (get_percentage s <? 0)) = false.
Proof.
induction l as [|x l IH]; intros i H s Hin; [contradiction|].
simpl in H. apply app_eq_nil in H. destruct H as [H1 H].
apply app_eq_nil in H. destruct H as [H2 H3].
destruct Hin as [<-|Hin]; [|apply (IH _ H3 s Hin)].
split.
- destruct (_ && _); [discriminate|reflexivity].
- destruct (String.eqb ty SPLIT_TYPE_PERCENTAGE && _); [discriminate|reflexivity].
Qed.

Lemma Forall2_map_eq {A B C : Type} (R : A -> B -> Prop) (h : A -> C)
      (k : B -> C) (l : list A) (ys : list B) :
  Forall2 R l ys -> (forall x y, R x y -> k y = h x) -> map k ys = map h l.
Proof.
intros H Hk. induction H as [|x y l ys Hxy _ IH]; [reflexivity|].
simpl. rewrite IH, (Hk x y Hxy). reflexivity.
Qed.

Lemma Forall2_In_r {A B : Type} (R : A -> B -> Prop) (l : list A)
      (ys : list B) (y : B) :
  Forall2 R l ys -> In y ys -> exists x, In x l /\ R x y.
Proof.
induction 1 as [|x y' l ys Hxy _ IH]; intros Hin; [contradiction|].
destruct Hin as [<-|Hin].
- exists x. split; [left; reflexivity|exact Hxy].
- destruct (IH Hin) as (x' & Hx' & Hr). exists x'. split; [right|]; assumption.
Qed.

(** What a valid expense declaration satisfies. *)
Lemma valid_facts (total : Q) (ty : string) (l : list split) :
  valid (validate_expense total ty l) = true ->
  0 < total
  /\ forall s, In s l ->
       (ty = SPLIT_TYPE_EXACT -> 0 <= get_amount s)
       /\ (ty = SPLIT_TYPE_PERCENTAGE -> 0 <= get_percentage s).
Proof.
intro Hv. apply valid_errors_nil in Hv.
unfold validate_expense in Hv. cbn [errors] in Hv.
apply app_eq_nil in Hv. destruct Hv as [H1 Hv].
apply app_eq_nil in Hv. destruct Hv as [_ Hv].
apply app_eq_nil in Hv. destruct Hv as [_ Hv].
apply app_eq_nil in Hv. destruct Hv as [_ H5].
split.
- destruct (Qleb_spec total 0) as [Hle|Hgt]; [discriminate|].
  apply Qnot_le_lt. exact Hgt.
- intros s Hs. destruct (share_errors_nil _ _ _ H5 s Hs) as [Ha Hp].
  split; intros ->.
  + rewrite String.eqb_refl in Ha. simpl in Ha. apply Qltb_ge in Ha. exact Ha.
  + rewrite String.eqb_refl in Hp. simpl in Hp. apply Qltb_ge in Hp. exact Hp.
Qed.

Lemma validated_shares_not_negative_core
      (total : Q) (ty : string) (l : list split)
      (shares : list calculated_split) :
  valid (validate_expense total ty l) = true ->
  calculate_splits total ty l = Ok shares ->
  forall c, In c shares -> 0 <= c_amount c.
Proof.
intros Hv Hc. destruct (valid_facts _ _ _ Hv) as [Htotal Hl].
pose proof (valid_nonempty _ _ _ Hv) as Hne.
unfold calculate_splits in Hc.
destruct (String.eqb_spec ty SPLIT_TYPE_EQUAL) as [E|_].
{ assert (Hs : shares
               = map (fun s => mk_calculated_split (userId s)
                                 (round2 (total / count l))) l).
  { destruct l; [congruence|]. inversion Hc. reflexivity. }
  subst shares. intros c Hin.
  apply in_map_iff in Hin. destruct Hin as (s & <- & _). simpl.
  apply round2_nonneg. pose proof (count_pos l Hne) as Hcount.
  apply Qlt_le_weak. apply Qlt_shift_div_l; [exact Hcount|]. lra. }
destruct (String.eqb_spec ty SPLIT_TYPE_EXACT) as [E|_].
{ apply comprehension_Forall2 in Hc.
  intros c Hin. destruct (Forall2_In_r _ _ _ c Hc Hin) as (s & Hs & Hsc).
  pose proof (proj1 (Hl s Hs) E) as Ha. unfold get_amount in Ha.
  destruct (s_amount s); inversion Hsc. simpl. exact Ha. }
destruct (String.eqb_spec ty SPLIT_TYPE_PERCENTAGE) as [E|_]; [|discriminate].
apply comprehension_Forall2 in Hc.
intros c Hin. destruct (Forall2_In_r _ _ _ c Hc Hin) as (s & Hs & Hsc).
pose proof (proj2 (Hl s Hs) E) as Hp. unfold get_percentage in Hp.
destruct (s_percentage s) as [p|]; inversion Hsc. simpl.
apply round2_nonneg.
apply Qmult_le_0_compat; [|lra].
unfold Qdiv. apply Qmult_le_0_compat; [exact Hp|]. discriminate.
Qed.

Lemma calculated_users (total : Q) (ty : string) (l : list split)
      (shares : list calculated_split) :
  calculate_splits total ty l = Ok shares ->
  map c_userId shares = map userId l.
Proof.
unfold calculate_splits.
destruct (String.eqb ty SPLIT_TYPE_EQUAL).
{ destruct l; [discriminate|]. intro H. inversion H.
  simpl. rewrite map_map. reflexivity. }
destruct (String.eqb ty SPLIT_TYPE_EXACT).
{ intro Hc. apply comprehension_Forall2 in Hc.
  apply (Forall2_map_eq _ _ _ _ _ Hc).
  intros s c Hsc. destruct (s_amount s); inversion Hsc. reflexivity. }
destruct (String.eqb ty SPLIT_TYPE_PERCENTAGE); [|discriminate].
intro Hc. apply comprehension_Forall2 in Hc.
apply (Forall2_map_eq _ _ _ _ _ Hc).
intros s c Hsc. destruct (s_percentage s); inversion Hsc. reflexivity.
Qed.

(** X2.  The shares computed for a declaration that passed validation are
    never negative, and there is one for every declared participant, in the
    order of the declaration. *)
Theorem validated_shares_are_not_negative
        (total : Q) (ty : string) (l : list split)
        (shares : list calculated_split) :
  valid (validate_expense total ty l) = true ->
  calculate_splits total ty l = Ok shares ->
  map c_userId shares = map userId l
  /\ forall c, In c shares -> 0 <= c_amount c.
Proof.
intros Hv Hc. split.
- apply (calculated_users _ _ _ _ Hc).
- apply (validated_shares_not_negative_core _ _ _ _ Hv Hc).
Qed.

Lemma validated_shares_are_not_negative_witness :
  map c_userId [mk_calculated_split Scenario.alice (50005 # 1000);
                mk_calculated_split Scenario.bob 50]
  = map userId Scenario.uneven_shares
  /\ forall c, In c [mk_calculated_split Scenario.alice (50005 # 1000);
                     mk_calculated_split Scenario.bob 50] -> 0 <= c_amount c.
Proof.
apply (validated_shares_are_not_negative 100 SPLIT_TYPE_EXACT
         Scenario.uneven_shares); vm_compute; reflexivity.
Defined.

Lemma find_absent {A : Type} (p : A -> bool) (l : list A) :
  (forall x, In x l -> p x = false) -> find p l = None.
Proof.
induction l as [|x l IH]; intro H; simpl; [reflexivity|].
rewrite (H x (or_introl eq_refl)). apply IH. intros y Hy. apply H. right. exact Hy.
Qed.

Lemma filter_absent {A : Type} (p : A -> bool) (l : list A) :
  (forall x, In x l -> p x = false) -> filter p l = [].
Proof.
induction l as [|x l IH]; intro H; simpl; [reflexivity|].
rewrite (H x (or_introl eq_refl)). apply IH. intros y Hy. apply H. right. exact Hy.
Qed.

Lemma filter_all {A : Type} (p : A -> bool) (l : list A) :
  (forall x, In x l -> p x = true) -> filter p l = l.
Proof.
induction l as [|x l IH]; intro H; simpl; [reflexivity|].
rewrite (H x (or_introl eq_refl)), IH; [reflexivity|].
intros y Hy. apply H. right. exact Hy.
Qed.

(** The balance updates of [add_expense] write nothing but balances. *)
Lemma balance_updates_differs (g paid_by : string) (cs : list calculated_split)
      (d : DB) :
  differs_only_in_group g d
    (fold_left
       (fun d c => update_balance d g (c_userId c) paid_by (c_amount c))
       (filter (fun c => negb (String.eqb (c_userId c) paid_by)) cs) d).
Proof.
rewrite <- apply_splits_non_payers. apply apply_splits_differs.
Qed.

(** X3.  An expense that [add_expense] accepts under an id not used before
    can be read back: [get_expense] returns the declared group, description,
    total, payer, split type and timestamp, with one split per computed
    share carrying the computed amount; this is the expense the call
    returns, next to the group's balances after the update.  Settlements
    are not touched. *)
Theorem add_expense_reads_back
        (db : DB) (expense_id : string) (now : nat) (data : expense_data)
        (db' : DB) (res : add_expense_result) :
  add_expense db expense_id now data = (db', Ok res) ->
  (forall r, In r (expenses db) -> e_id r <> expense_id) ->
  (forall s, In s (expense_splits db) -> sp_expense_id s <> expense_id) ->
  exists shares,
    calculate_splits (d_totalAmount data) (d_splitType data) (d_splits data)
    = Ok shares
    /\ get_expense db' expense_id
       = Some (mk_expense expense_id (d_groupId data) (d_description data)
                 (d_totalAmount data) (d_paidBy data) (d_splitType data)
                 (map (fun c =>
                         mk_split (c_userId c) (Some (c_amount c))
                           (stored_percentage (d_splitType data) (d_splits data)
                              (c_userId c)))
                      shares)
                 now)
    /\ r_expense res = get_expense db' expense_id
    /\ r_balances res = get_group_balances db' (d_groupId data)
    /\ settlements db' = settlements db.
Proof.
unfold add_expense.
destruct (GroupService.get_group _ _); [|discriminate].
destruct (negb (existsb _ _)); [discriminate|].
destruct (negb (fst _)); [discriminate|].
destruct (negb (valid _)); [discriminate|].
destruct (calculate_splits _ _ _) as [shares|e]; [|discriminate].
intros H Hfresh Hfresh'. exists shares. split; [reflexivity|].
set (db2 := with_expense_splits _ _) in H.
pose proof (balance_updates_differs (d_groupId data) (d_paidBy data) shares db2)
  as [Hd _].
inversion H as [[Hdb Hres]]. clear H. rewrite Hdb in *.
split; [|split; [reflexivity|split; [reflexivity|]]].
- unfold get_expense. rewrite Hd. subst db2. cbn [expenses with_balances
    with_expense_splits with_expenses].
  rewrite find_app_hit.
  + cbn [e_id]. unfold map_row_to_expense. cbn. f_equal. f_equal.
    unfold splits_of. cbn [expense_splits].
    rewrite filter_app, filter_absent, filter_all.
    * simpl. rewrite map_map. reflexivity.
    * intros x Hx. apply in_map_iff in Hx. destruct Hx as (c & <- & _).
      simpl. apply String.eqb_refl.
    * intros x Hx. apply String.eqb_neq. apply Hfresh', Hx.
  + apply find_absent. intros x Hx. apply String.eqb_neq. apply Hfresh, Hx.
  + simpl. apply String.eqb_refl.
- rewrite Hd. reflexivity.
Qed.

Lemma add_expense_reads_back_witness :
  exists shares,
    calculate_splits 100 SPLIT_TYPE_EQUAL
      [Scenario.participant Scenario.alice; Scenario.participant Scenario.bob]
    = Ok shares
    /\ get_expense Scenario.after_dinner Scenario.e1
       = Some (mk_expense Scenario.e1 Scenario.pair
                 (d_description Scenario.dinner) 100 Scenario.alice
                 SPLIT_TYPE_EQUAL
                 (map (fun c =>
                         mk_split (c_userId c) (Some (c_amount c))
                           (stored_percentage SPLIT_TYPE_EQUAL
                              (d_splits Scenario.dinner) (c_userId c)))
                      shares)
                 1)
    /\ r_expense (mk_add_expense_result
                    (get_expense Scenario.after_dinner Scenario.e1)
                    (get_group_balances Scenario.after_dinner Scenario.pair))
       = get_expense Scenario.after_dinner Scenario.e1
    /\ r_balances (mk_add_expense_result
                     (get_expense Scenario.after_dinner Scenario.e1)
                     (get_group_balances Scenario.after_dinner Scenario.pair))
       = get_group_balances Scenario.after_dinner Scenario.pair
    /\ settlements Scenario.after_dinner = settlements Scenario.start.
Proof.
apply (add_expense_reads_back Scenario.start Scenario.e1 1 Scenario.dinner
         Scenario.after_dinner
         (mk_add_expense_result
            (get_expense Scenario.after_dinner Scenario.e1)
            (get_group_balances Scenario.after_dinner Scenario.pair))).
- vm_compute. reflexivity.
- intros r [].
- intros s [].
Defined.

End AddExpense.

(** ** Operations stay in their group *)

Section Frame.
Import ExpenseService BalanceService Ledger Transfers.

Lemma differs_group_rows (g g' : string) (d d' : DB) :
  differs_only_in_group g d d' -> g' <> g -> group_rows d' g' = group_rows d g'.
Proof.
intros [_ F] Hne. unfold group_rows.
rewrite <- (filter_absorb (fun r => String.eqb (group_id r) g')
              (fun r => negb (String.eqb (group_id r) g)) (balances d')).
- rewrite F. apply filter_absorb.
  intros r Hr. apply String.eqb_eq in Hr. rewrite Hr.
  apply negb_true_iff, String.eqb_neq. exact Hne.
- intros r Hr. apply String.eqb_eq in Hr. rewrite Hr.
  apply negb_true_iff, String.eqb_neq. exact Hne.
Qed.

Lemma reduce_in_order_differs (g : string) (items : list balance) :
  forall d remaining,
    differs_only_in_group g d (reduce_in_order d g items remaining).
Proof.
induction items as [|b items IH]; intros d remaining; simpl.
- apply differs_refl.
- destruct (remaining <=? 0); [apply differs_refl|].
  eapply differs_trans; [apply set_balance_differs|apply IH].
Qed.

Lemma apply_smart_settlement_differs (g payer recipient : string) (a : Q)
      (d : DB) :
  differs_only_in_group g d (apply_smart_settlement d g payer recipient a).
Proof.
unfold apply_smart_settlement.
match goal with
| |- differs_only_in_group _ _ (if _ then reduce_in_order ?d1 _ _ _ else _) =>
    assert (H1 : differs_only_in_group g d d1);
      [|set (db1 := d1) in *; clearbody db1]
end.
{ destruct (0 <? _); [apply reduce_in_order_differs|apply differs_refl]. }
destruct (0 <? _); [|exact H1].
eapply differs_trans; [exact H1|apply reduce_in_order_differs].
Qed.

Lemma recalculate_differs (g : string) (d : DB) :
  differs_only_in_group g d (fst (recalculate_group_balances d g)).
Proof.
unfold recalculate_group_balances.
destruct (GroupService.get_group d g); [|apply differs_refl].
eapply differs_trans; [apply clear_group_balances_differs|].
pose proof (replay_expenses_differs g
              (get_group_expenses (clear_group_balances d g) g)
              (clear_group_balances d g)) as H.
destruct (replay_expenses _ g _) as [db2 [u|e]]; simpl in *; [|exact H].
eapply differs_trans; [exact H|apply replay_settlements_differs].
Qed.

(** X4.  Adding an expense, recording a settlement, recalculating a group
    and deleting an expense leave the balance rows of every other group as
    they are, in content and in order, whether the call returns or raises. *)
Theorem operations_stay_in_their_group :
  (forall db expense_id now data g',
      g' <> d_groupId data ->
      group_rows (fst (add_expense db expense_id now data)) g' = group_rows db g')
  /\ (forall db settlement_id data g',
        g' <> SettlementService.d_groupId data ->
        group_rows (fst (SettlementService.record_settlement db settlement_id data)) g'
        = group_rows db g')
  /\ (forall db g g',
        g' <> g ->
        group_rows (fst (recalculate_group_balances db g)) g' = group_rows db g')
  /\ (forall db expense_id x g',
        get_expense db expense_id = Some x ->
        g' <> x_groupId x ->
        group_rows (fst (delete_expense db expense_id)) g' = group_rows db g').
Proof.
split; [|split; [|split]].
- intros db expense_id now data g' Hne. unfold add_expense.
  destruct (GroupService.get_group _ _); [|reflexivity].
  destruct (negb (existsb _ _)); [reflexivity|].
  destruct (negb (fst _)); [reflexivity|].
  destruct (negb (valid _)); [reflexivity|].
  destruct (calculate_splits _ _ _) as [shares|e]; [|reflexivity].
  cbn [fst].
  rewrite (differs_group_rows _ _ _ _
             (balance_updates_differs (d_groupId data) (d_paidBy data) shares _) Hne).
  reflexivity.
- intros db settlement_id data g' Hne.
  unfold SettlementService.record_settlement.
  destruct (GroupService.get_group _ _); [|reflexivity].
  destruct (_ || _); [reflexivity|].
  destruct (_ <=? 0); [reflexivity|].
  destruct (0 <=? _); [reflexivity|].
  destruct (_ <=? 0); [reflexivity|].
  destruct (_ <? _); [reflexivity|].
  cbn [fst].
  rewrite (differs_group_rows _ _ _ _
             (apply_smart_settlement_differs _ _ _ _ _) Hne).
  reflexivity.
- intros db g g' Hne.
  apply (differs_group_rows g g' _ _ (recalculate_differs g db) Hne).
- intros db expense_id x g' Hx Hne. unfold delete_expense. rewrite Hx.
  pose proof (recalculate_differs (x_groupId x)
                (with_expenses db
                   (filter (fun r => negb (String.eqb (e_id r) expense_id))
                           (expenses db)))) as H.
  destruct (recalculate_group_balances _ _) as [db2 [u|e]]; cbn [fst] in *;
    rewrite (differs_group_rows _ _ _ _ H Hne); reflexivity.
Qed.

Lemma operations_stay_in_their_group_witness :
  group_rows (fst (add_expense Scenario.after_dinner Scenario.e2 2
                     Scenario.for_bob)) Scenario.pair
  = group_rows Scenario.after_dinner Scenario.pair
  /\ group_rows (fst (recalculate_group_balances Scenario.after_dinner
                        Scenario.trio)) Scenario.pair
     = group_rows Scenario.after_dinner Scenario.pair.
Proof.
destruct operations_stay_in_their_group as (H1 & _ & H3 & _).
split; [apply H1|apply H3]; discriminate.
Defined.

End Frame.

(** ** The update engine adds up *)

Section Signed.
Import ExpenseService BalanceService Ledger Transfers Design.

Variable g : string.

Lemma reading_nonneg (d : DB) (a b : string) :
  net_reduced_at g (balances d) -> 0 <= get_balance_between_users d g a b.
Proof.
intros [Hp _]. unfold get_balance_between_users.
destruct (find _ (balances d)) as [r|] eqn:E; [|apply Qle_refl].
apply find_some in E. destruct E as [Hin Hk].
apply key_match_iff in Hk. destruct Hk as (Hg & _).
apply Qlt_le_weak. apply Hp; assumption.
Qed.

Lemma reverse_reads_zero (d : DB) (a b : string) :
  net_reduced_at g (balances d) ->
  0 < get_balance_between_users d g a b ->
  get_balance_between_users d g b a = 0.
Proof.
intros Hnr Hpos.
destruct (get_positive_row d g a b Hpos) as (r0 & Hin0 & Hk0).
unfold get_balance_between_users.
destruct (find _ (balances d)) as [r|] eqn:E; [|reflexivity].
apply find_some in E. destruct E as [Hin Hk].
pose proof (stored_excludes_reverse g a b _ r0 Hnr Hin0 Hk0 r Hin).
congruence.
Qed.

(** Of the two directions of a pair at most one reads non-zero. *)
Lemma one_direction_reads_zero (d : DB) (a b : string) :
  net_reduced_at g (balances d) ->
  get_balance_between_users d g a b == 0
  \/ get_balance_between_users d g b a == 0.
Proof.
intro Hnr.
destruct (Qlt_le_dec 0 (get_balance_between_users d g a b)) as [Hpos|Hle].
- right. rewrite (reverse_reads_zero d a b Hnr Hpos). reflexivity.
- left. pose proof (reading_nonneg d a b Hnr). lra.
Qed.

Lemma update_balance_other_reading (d : DB) (f t : string) (amt : Q)
      (g' a b : string) :
  other_key g f t g' a b -> other_key g t f g' a b ->
  get_balance_between_users (update_balance d g f t amt) g' a b
  = get_balance_between_users d g' a b.
Proof.
intros K1 K2. unfold update_balance, get_balance_between_users.
destruct (0 <? _); [destruct (amt <? _); [|destruct (_ <? amt)]|];
  rewrite ?find_set_other by assumption; reflexivity.
Qed.

Lemma reading_set_other (d : DB) (f t g' f' t' : string) (a : Q) :
  other_key g f t g' f' t' ->
  get_balance_between_users (set_balance d g f t a) g' f' t'
  = get_balance_between_users d g' f' t'.
Proof.
intro K. unfold get_balance_between_users.
rewrite (find_set_other d _ _ _ _ _ _ a K). reflexivity.
Qed.

(** A transfer of a non-negative amount raises the signed balance of the
    debtor towards the creditor by that amount. *)
Lemma update_balance_signed (d : DB) (f t : string) (amt : Q) :
  net_reduced_at g (balances d) -> f <> t -> 0 <= amt ->
  signed (update_balance d g f t amt) g f t == signed d g f t + amt.
Proof.
intros Hnr Hne Hamt.
assert (Kft : other_key g f t g t f) by (right; left; exact Hne).
assert (Ktf : other_key g t f g f t) by (right; left; congruence).
pose proof (reading_nonneg d f t Hnr) as Hcur.
pose proof (reading_nonneg d t f Hnr) as Hrev.
unfold signed, update_balance.
destruct (Qltb_spec 0 (get_balance_between_users d g t f)) as [Hpos|Hnon].
- pose proof (reverse_reads_zero d t f Hnr Hpos) as Hz.
  destruct (Qltb_spec amt (get_balance_between_users d g t f)) as [Hlt|Hge].
  + rewrite (reading_set_other _ _ _ _ _ _ _ Ktf), get_set_same.
    destruct (Qltb_spec 0 (get_balance_between_users d g t f - amt))
      as [_|Hn]; [|exfalso; apply Hn; lra].
    rewrite Hz. ring.
  + destruct (Qltb_spec (get_balance_between_users d g t f) amt) as [Hlt'|Hge'].
    * rewrite get_set_same, (reading_set_other _ _ _ _ _ _ _ Kft), get_set_same.
      destruct (Qltb_spec 0 (amt - get_balance_between_users d g t f))
        as [_|Hn]; [|exfalso; apply Hn; lra].
      change (0 <? 0) with false. cbv iota.
      rewrite Hz. ring.
    * rewrite (reading_set_other _ _ _ _ _ _ _ Ktf), get_set_same.
      change (0 <? 0) with false. cbv iota.
      rewrite Hz. lra.
- rewrite get_set_same, (reading_set_other _ _ _ _ _ _ _ Kft).
  destruct (Qltb_spec 0 (get_balance_between_users d g f t + amt))
    as [_|Hn]; [ring|lra].
Qed.

Lemma signed_antisym (d : DB) (a b : string) :
  signed d g a b == - signed d g b a.
Proof. unfold signed. ring. Qed.

Lemma self_reads_zero (d : DB) (a : string) :
  net_reduced_at g (balances d) -> get_balance_between_users d g a a == 0.
Proof.
intro Hnr. destruct (one_direction_reads_zero d a a Hnr); assumption.
Qed.







(** In a net-reduced group the signed balances determine the readings. *)
Lemma reading_of_signed (d : DB) (a b : string) :
  net_reduced_at g (balances d) ->
  get_balance_between_users d g a b == Qmax 0 (signed d g a b).
Proof.
intro Hnr. unfold signed.
pose proof (reading_nonneg d a b Hnr) as Hx.
pose proof (reading_nonneg d b a Hnr) as Hy.
destruct (Q.max_spec 0 (get_balance_between_users d g a b
                        - get_balance_between_users d g b a)) as [[H E]|[H E]];
  rewrite E; destruct (one_direction_reads_zero d a b Hnr); lra.
Qed.


Lemma same_readings_signed (d d' : DB) (a b : string) :
  same_readings g d d' -> signed d g a b == signed d' g a b.
Proof.
intro H. unfold signed. rewrite (H a b), (H b a). reflexivity.
Qed.

(** X5.  In a net-reduced group, a transfer of a non-negative amount between
    two different users moves the pair's signed balance by exactly that
    amount: afterwards the debtor owes the creditor the positive part of
    what the debtor owed, minus what the creditor owed, plus the amount; the
    creditor owes the debtor the positive part of the opposite; and the
    reading of every other pair, in this or any other group, is what it
    was. *)
Theorem update_balance_adds_up (d : DB) (f t : string) (amt : Q) :
  net_reduced_at g (balances d) -> f <> t -> 0 <= amt ->
  let after := update_balance d g f t amt in
  get_balance_between_users after g f t == Qmax 0 (signed d g f t + amt)
  /\ get_balance_between_users after g t f == Qmax 0 (- (signed d g f t + amt))
  /\ forall g' a b,
       other_key g f t g' a b -> other_key g t f g' a b ->
       get_balance_between_users after g' a b
       = get_balance_between_users d g' a b.
Proof.
intros Hnr Hne Hamt after.
assert (Hnr' : net_reduced_at g (balances after)).
{ apply update_balance_net_reduced; assumption. }
pose proof (update_balance_signed d f t amt Hnr Hne Hamt) as Hs.
fold after in Hs.
split; [|split].
- rewrite (reading_of_signed after f t Hnr').
  destruct (Q.max_spec 0 (signed after g f t)) as [[H E]|[H E]];
    destruct (Q.max_spec 0 (signed d g f t + amt)) as [[H' E']|[H' E']];
    rewrite E, E'; lra.
- rewrite (reading_of_signed after t f Hnr').
  pose proof (signed_antisym after t f) as Ha.
  destruct (Q.max_spec 0 (signed after g t f)) as [[H E]|[H E]];
    destruct (Q.max_spec 0 (- (signed d g f t + amt))) as [[H' E']|[H' E']];
    rewrite E, E'; lra.
- intros g' a b K1 K2. apply update_balance_other_reading; assumption.
Qed.



End Signed.

Section SignedWitnesses.
Import BalanceService Ledger Transfers.

Lemma after_dinner_net_reduced :
  net_reduced_at Scenario.pair (balances Scenario.after_dinner).
Proof. apply reachable_net_reduced, after_dinner_reachable. Qed.

Lemma update_balance_adds_up_witness :
  let after :=
    update_balance Scenario.after_dinner Scenario.pair Scenario.alice
                   Scenario.bob 70 in
  get_balance_between_users after Scenario.pair Scenario.alice Scenario.bob
  == Qmax 0 (signed Scenario.after_dinner Scenario.pair Scenario.alice
                    Scenario.bob + 70)
  /\ get_balance_between_users after Scenario.pair Scenario.bob Scenario.alice
     == Qmax 0 (- (signed Scenario.after_dinner Scenario.pair Scenario.alice
                          Scenario.bob + 70))
  /\ forall g' a b,
       other_key Scenario.pair Scenario.alice Scenario.bob g' a b ->
       other_key Scenario.pair Scenario.bob Scenario.alice g' a b ->
       get_balance_between_users after g' a b
       = get_balance_between_users Scenario.after_dinner g' a b.
Proof.
apply (update_balance_adds_up Scenario.pair Scenario.after_dinner
         Scenario.alice Scenario.bob 70).
- exact after_dinner_net_reduced.
- discriminate.
- discriminate.
Defined.


End SignedWitnesses.

(** ** The amounts of a recalculation do not depend on the replay order *)

Section ReplayAmounts.
Import ExpenseService BalanceService Ledger Transfers Design.






















End ReplayAmounts.

(** ** record_settlement and apply_smart_settlement *)

Section SettlementEffects.
Import BalanceService SettlementService Ledger Transfers.

(** Every row of [bs] has the key of a row of [bs0] and an amount no larger
    than that row's amount or its rounding to cents. *)
Let lowered (bs bs0 : list balance_row) : Prop :=
  forall r, In r bs ->
    exists r0, In r0 bs0
               /\ key_match (group_id r) (from_user_id r) (to_user_id r) r0 = true
               /\ Store.amount r <= Qmax (Store.amount r0) (round2 (Store.amount r0)).

Lemma lowered_refl (bs : list balance_row) : lowered bs bs.
Proof.
intros r Hin. exists r. split; [exact Hin|]. split.
- apply key_match_iff. auto.
- apply Q.le_max_l.
Qed.

Lemma reduce_in_order_lowers (bs0 : list balance_row) (g : string)
      (items : list balance) :
  (forall b, In b items ->
     exists r0, In r0 bs0 /\ group_id r0 = g /\ 0 < Store.amount r0
                /\ b = map_row_to_balance r0) ->
  forall (db : DB) (remaining : Q),
    lowered (balances db) bs0 ->
    lowered (balances (reduce_in_order db g items remaining)) bs0.
Proof.
induction items as [|b items IH]; intros Hitems db remaining Hl; simpl.
- exact Hl.
- destruct (Qleb_spec remaining 0) as [Hle|Hgt]; [exact Hl|].
  apply IH; [intros b' Hb'; apply Hitems; right; exact Hb'|].
  intros r Hin. apply In_set_balance in Hin.
  destruct Hin as [[Hin _]|[_ ->]]; [apply Hl, Hin|].
  destruct (Hitems b (or_introl eq_refl)) as (r0 & Hin0 & Hg & Hpos & ->).
  exists r0. split; [exact Hin0|]. simpl. split.
  + apply key_match_iff. auto.
  + pose proof (round2_nonneg (Store.amount r0) (Qlt_le_weak _ _ Hpos)) as Hr.
    apply Qnot_le_lt in Hgt.
    assert (Hmin : 0 <= Qmin (round2 (Store.amount r0)) remaining).
    { apply Q.min_glb; [exact Hr|apply Qlt_le_weak; exact Hgt]. }
    eapply Qle_trans; [|apply Q.le_max_r]. lra.
Qed.

Lemma snapshot_rows (db : DB) (g : string) (p : balance -> bool) (b : balance) :
  In b (filter p (get_group_balances db g)) ->
  exists r0, In r0 (balances db) /\ group_id r0 = g /\ 0 < Store.amount r0
             /\ b = map_row_to_balance r0.
Proof.
intro H. apply filter_In in H. destruct H as [H _].
apply get_group_balances_stored in H. exact H.
Qed.

Lemma apply_smart_settlement_lowers (db : DB) (g payer recipient : string)
      (a : Q) :
  lowered (balances (apply_smart_settlement db g payer recipient a)) (balances db).
Proof.
unfold apply_smart_settlement.
match goal with
| |- lowered (balances (if _ then reduce_in_order ?d1 _ _ _ else _)) _ =>
    assert (H1 : lowered (balances d1) (balances db));
      [|set (db1 := d1) in *; clearbody db1]
end.
{ destruct (0 <? _); [|apply lowered_refl].
  apply reduce_in_order_lowers; [|apply lowered_refl].
  intros b Hb. apply (snapshot_rows db g _ b Hb). }
destruct (0 <? _); [|exact H1].
apply reduce_in_order_lowers; [|exact H1].
intros b Hb. apply (snapshot_rows db g _ b Hb).
Qed.

(** X8.  A settlement that [record_settlement] accepts is appended to the
    settlements and, under an id not used before, comes back from
    [get_settlement] with the group, payer, recipient and amount given; the
    call returns it with the payer's net position after the settlement,
    rounded to cents.  Expenses are not touched.  No balance appears
    between users who had none, and no balance grows: every balance row
    stored afterwards has the key of a row stored before and at most that
    row's amount or its rounding to cents. *)
Theorem record_settlement_records_and_lowers
        (db : DB) (settlement_id : string) (data : settlement_data)
        (db' : DB) (res : settlement_result) :
  record_settlement db settlement_id data = (db', Ok res) ->
  settlements db'
  = settlements db
    ++ [mk_settlement_row settlement_id (d_groupId data) (d_fromUserId data)
          (d_toUserId data) (d_amount data)]
  /\ expenses db' = expenses db
  /\ expense_splits db' = expense_splits db
  /\ remainingBalance res
     = round2 (user_net (get_group_balances db' (d_groupId data))
                 (d_fromUserId data))
  /\ ((forall r, In r (settlements db) -> st_id r <> settlement_id) ->
      r_settlement res
      = Some (mk_settlement settlement_id (d_groupId data) (d_fromUserId data)
                (d_toUserId data) (d_amount data))
      /\ get_settlement db' settlement_id = r_settlement res)
  /\ forall r, In r (balances db') ->
       exists r0, In r0 (balances db)
         /\ key_match (group_id r) (from_user_id r) (to_user_id r) r0 = true
         /\ Store.amount r <= Qmax (Store.amount r0) (round2 (Store.amount r0)).
Proof.
unfold record_settlement.
destruct (GroupService.get_group _ _); [|discriminate].
destruct (_ || _); [discriminate|].
destruct (_ <=? 0); [discriminate|].
destruct (0 <=? _); [discriminate|].
destruct (_ <=? 0); [discriminate|].
destruct (_ <? _); [discriminate|].
set (db1 := with_settlements db _).
intro H. injection H as Hdb Hres. subst db' res.
pose proof (apply_smart_settlement_differs (d_groupId data) (d_fromUserId data)
              (d_toUserId data) (d_amount data) db1) as [Hd _].
cbn [remainingBalance r_settlement].
repeat split.
- rewrite Hd. reflexivity.
- rewrite Hd. reflexivity.
- rewrite Hd. reflexivity.
- unfold get_settlement. rewrite Hd. cbn [settlements with_balances].
  subst db1. cbn [settlements with_settlements].
  rewrite find_app_hit; [reflexivity| |simpl; apply String.eqb_refl].
  apply find_absent. intros x Hx. apply String.eqb_neq. apply H, Hx.
- apply (apply_smart_settlement_lowers db1).
Qed.

Lemma record_settlement_records_and_lowers_witness :
  let data := mk_settlement_data Scenario.pair Scenario.bob Scenario.alice 20 in
  let outcome := record_settlement Scenario.after_dinner Scenario.s1 data in
  settlements (fst outcome)
  = settlements Scenario.after_dinner
    ++ [mk_settlement_row Scenario.s1 Scenario.pair Scenario.bob Scenario.alice 20]
  /\ get_balance_between_users (fst outcome) Scenario.pair Scenario.bob
       Scenario.alice == 30.
Proof.
cbv zeta.
destruct (record_settlement Scenario.after_dinner Scenario.s1
            (mk_settlement_data Scenario.pair Scenario.bob Scenario.alice 20))
  as [db' [res|e]] eqn:E; [|vm_compute in E; discriminate E].
destruct (record_settlement_records_and_lowers _ _ _ _ _ E) as (H1 & _).
split; [exact H1|].
vm_compute in E. injection E as <- _. vm_compute. reflexivity.
Defined.

End SettlementEffects.

(** ** Net positions *)

Section NetPositions.
Import BalanceService SettlementService Ledger Design BalanceQueries.




Lemma reported_balances_distinct (db : DB) (g : string) (b : balance) :
  net_reduced (balances db) -> In b (get_group_balances db g) ->
  BalanceService.fromUserId b <> BalanceService.toUserId b.
Proof.
intros Hnr Hin. apply get_group_balances_stored in Hin.
destruct Hin as (r & Hr & Hg & _ & ->). simpl. intro E.
destruct (Hnr g) as [_ Hrev]. apply (Hrev r r Hr Hr Hg).
unfold reverse_of. auto.
Qed.







End NetPositions.

(** ** settle_balance *)

Section SettleBalance.
Import BalanceService BalanceQueries Ledger Transfers.



End SettleBalance.

(** ** delete_expense *)

Section DeleteExpense.
Import ExpenseService BalanceService Ledger.

Lemma replay_expenses_raises (g : string) (es : list expense) :
  forall d d' e,
    replay_expenses d g es = (d', Raise e) ->
    In e [ZeroDivisionError; KeyError; UnknownSplitType].
Proof.
induction es as [|x es IH]; intros d d' e; simpl; [discriminate|].
destruct (calculate_splits _ _ _) as [shares|e'] eqn:Hc.
- apply IH.
- intro H. injection H as _ <-. apply calculate_splits_raises in Hc.
  destruct Hc as [[-> _]|[->| ->]]; simpl; auto.
Qed.

(** X12.  [delete_expense] on an id that names no expense returns False and
    changes nothing.  On an id that names one, the expense row is deleted
    before the recalculation starts: afterwards it cannot be read back,
    whether the call returned True or the recalculation raised, while every
    other expense reads as before and the settlements are untouched. *)
Theorem delete_expense_deletes (db : DB) (expense_id : string) :
  (get_expense db expense_id = None ->
   delete_expense db expense_id = (db, Ok false))
  /\ (forall x, get_expense db expense_id = Some x ->
        let outcome := delete_expense db expense_id in
        (snd outcome = Ok true
         \/ exists e, snd outcome = Raise e
                      /\ In e [GroupNotFound; ZeroDivisionError; KeyError;
                               UnknownSplitType])
        /\ get_expense (fst outcome) expense_id = None
        /\ (forall other, other <> expense_id ->
              get_expense (fst outcome) other = get_expense db other)
        /\ settlements (fst outcome) = settlements db).
Proof.
split.
- intro H. unfold delete_expense. rewrite H. reflexivity.
- intros x Hx outcome. subst outcome. unfold delete_expense. rewrite Hx.
  set (db1 := with_expenses db _).
  pose proof (recalculate_differs (x_groupId x) db1) as [Hd _].
  assert (Hout : snd (recalculate_group_balances db1 (x_groupId x)) = Ok tt
                 \/ exists e,
                      snd (recalculate_group_balances db1 (x_groupId x)) = Raise e
                      /\ In e [GroupNotFound; ZeroDivisionError; KeyError;
                               UnknownSplitType]).
  { unfold recalculate_group_balances.
    destruct (GroupService.get_group db1 (x_groupId x)).
    2:{ right. exists GroupNotFound. simpl. auto. }
    destruct (replay_expenses _ _ _) as [db2 [u|e]] eqn:Hr.
    - left. reflexivity.
    - right. exists e. split; [reflexivity|].
      apply replay_expenses_raises in Hr. simpl in *. tauto. }
  destruct (recalculate_group_balances db1 (x_groupId x)) as [db2 [u|e]];
    cbn [fst snd] in *.
  + split; [left; reflexivity|].
    rewrite Hd. unfold get_expense. subst db1.
    cbn [expenses expense_splits with_balances with_expenses].
    split; [|split; [|reflexivity]].
    * rewrite find_none_filter. reflexivity.
    * intros other Hne. rewrite find_filter_other; [reflexivity|].
      intros r Hr. apply String.eqb_eq in Hr. rewrite Hr.
      apply negb_true_iff, String.eqb_neq. exact Hne.
  + split.
    { right. destruct Hout as [H|(e' & H & Hin)]; [discriminate|].
      injection H as <-. exists e. auto. }
    rewrite Hd. unfold get_expense. subst db1.
    cbn [expenses expense_splits with_balances with_expenses].
    split; [|split; [|reflexivity]].
    * rewrite find_none_filter. reflexivity.
    * intros other Hne. rewrite find_filter_other; [reflexivity|].
      intros r Hr. apply String.eqb_eq in Hr. rewrite Hr.
      apply negb_true_iff, String.eqb_neq. exact Hne.
Qed.

Lemma delete_expense_deletes_witness :
  delete_expense Scenario.start Scenario.e1 = (Scenario.start, Ok false)
  /\ get_expense (fst (delete_expense Scenario.after_taxi_and_lunch Scenario.e1))
                 Scenario.e1 = None
  /\ get_expense (fst (delete_expense Scenario.after_taxi_and_lunch Scenario.e1))
                 Scenario.e2
     = get_expense Scenario.after_taxi_and_lunch Scenario.e2.
Proof.
split.
- destruct (delete_expense_deletes Scenario.start Scenario.e1) as [H _].
  apply H. vm_compute. reflexivity.
- destruct (delete_expense_deletes Scenario.after_taxi_and_lunch Scenario.e1)
    as [_ H].
  destruct (get_expense Scenario.after_taxi_and_lunch Scenario.e1) as [x|] eqn:E;
    [|vm_compute in E; discriminate E].
  destruct (H x eq_refl) as (_ & H1 & H2 & _).
  split; [exact H1|]. apply H2. discriminate.
Defined.

End DeleteExpense.

(** ** Adding an expense and deleting it again *)

Section AddThenDelete.
Import ExpenseService BalanceService Ledger.

Variable leftover : list split_row.

(** The database with the split rows replaced. *)
Let W (d : DB) : DB := with_expense_splits d leftover.

Lemma W_update_balance (d : DB) (g f t : string) (a : Q) :
  update_balance (W d) g f t a = W (update_balance d g f t a).
Proof.
unfold update_balance.
change (get_balance_between_users (W d) g t f)
  with (get_balance_between_users d g t f).
change (get_balance_between_users (W d) g f t)
  with (get_balance_between_users d g f t).
destruct (0 <? _); [destruct (a <? _); [|destruct (_ <? a)]|]; reflexivity.
Qed.

Lemma W_apply_splits (g paid_by : string) (cs : list calculated_split) :
  forall d, apply_splits (W d) g paid_by cs = W (apply_splits d g paid_by cs).
Proof.
unfold apply_splits.
induction cs as [|c cs IH]; intro d; simpl; [reflexivity|].
destruct (negb _); [rewrite W_update_balance|]; apply IH.
Qed.

Lemma W_replay_expenses (g : string) (es : list expense) :
  forall d,
    replay_expenses (W d) g es
    = (W (fst (replay_expenses d g es)), snd (replay_expenses d g es)).
Proof.
induction es as [|x es IH]; intro d; simpl; [reflexivity|].
destruct (calculate_splits _ _ _) as [shares|e]; [|reflexivity].
rewrite W_apply_splits. apply IH.
Qed.

Lemma W_replay_settlements (sts : list settlement_row) :
  forall d,
    fold_left replay_settlement sts (W d)
    = W (fold_left replay_settlement sts d).
Proof.
induction sts as [|st sts IH]; intro d; simpl; [reflexivity|].
rewrite <- IH. f_equal. unfold replay_settlement.
change (get_balance_between_users (W d) (st_group_id st) (st_from_user_id st)
          (st_to_user_id st))
  with (get_balance_between_users d (st_group_id st) (st_from_user_id st)
          (st_to_user_id st)).
destruct (0 <? _); [apply W_update_balance|reflexivity].
Qed.

(** Recalculation does not look at split rows of expenses that are not
    stored. *)
Lemma W_recalculate (d : DB) (g : string) :
  (forall row, In row (expenses d) ->
     splits_of (W d) (e_id row) = splits_of d (e_id row)) ->
  recalculate_group_balances (W d) g
  = (W (fst (recalculate_group_balances d g)),
     snd (recalculate_group_balances d g)).
Proof.
intro Hs. unfold recalculate_group_balances.
change (GroupService.get_group (W d) g) with (GroupService.get_group d g).
destruct (GroupService.get_group d g); [|reflexivity].
change (clear_group_balances (W d) g) with (W (clear_group_balances d g)).
assert (He : get_group_expenses (W (clear_group_balances d g)) g
             = get_group_expenses (clear_group_balances d g) g).
{ unfold get_group_expenses. apply map_ext_in. intros row Hin.
  apply (Permutation_in _ (order_by_created_at_desc_perm _)) in Hin.
  apply filter_In in Hin. destruct Hin as [Hin _].
  f_equal. apply (Hs row Hin). }
rewrite He, W_replay_expenses.
destruct (replay_expenses (clear_group_balances d g) g _) as [db2 [u|e]];
  cbn [fst snd]; [|reflexivity].
change (settlements (W db2)) with (settlements db2).
rewrite W_replay_settlements. reflexivity.
Qed.

End AddThenDelete.

Section AddThenDeleteTheorem.
Import ExpenseService BalanceService Ledger.

(** X13.  Deleting an expense right after [add_expense] accepted it, under
    an id not used before, gives the database that recalculating the group
    before the addition gives, except that the split rows of the deleted
    expense stay behind; [delete_expense] returns True exactly when that
    recalculation returns. *)
Theorem add_then_delete_is_recalculate
        (db : DB) (expense_id : string) (now : nat) (data : expense_data)
        (db' : DB) (res : add_expense_result) :
  add_expense db expense_id now data = (db', Ok res) ->
  (forall r, In r (expenses db) -> e_id r <> expense_id) ->
  (forall s, In s (expense_splits db) -> sp_expense_id s <> expense_id) ->
  fst (delete_expense db' expense_id)
  = with_expense_splits
      (fst (recalculate_group_balances db (d_groupId data)))
      (expense_splits db')
  /\ (snd (delete_expense db' expense_id) = Ok true
      <-> snd (recalculate_group_balances db (d_groupId data)) = Ok tt).
Proof.
unfold add_expense.
destruct (GroupService.get_group db (d_groupId data)) as [members|] eqn:Hgrp;
  [|discriminate].
destruct (negb (existsb _ _)); [discriminate|].
destruct (negb (fst _)); [discriminate|].
destruct (negb (valid _)); [discriminate|].
destruct (calculate_splits _ _ _) as [shares|e]; [|discriminate].
intros H Hfresh Hfresh'.
set (row := mk_expense_row expense_id (d_groupId data) (d_description data)
              (d_totalAmount data) (d_paidBy data) (d_splitType data) now) in *.
set (news := map _ shares) in H.
set (db2 := with_expense_splits _ _) in H.
pose proof (balance_updates_differs (d_groupId data) (d_paidBy data) shares db2)
  as [Hd Hf].
injection H as Hdb Hres. rewrite Hdb in Hd, Hf. clear Hres.
set (g := d_groupId data) in *.
(* the expense is found, and its row is the only one removed *)
assert (Hget : exists x, get_expense db' expense_id = Some x /\ x_groupId x = g).
{ unfold get_expense. rewrite Hd. subst db2.
  cbn [expenses with_balances with_expense_splits with_expenses].
  rewrite find_app_hit.
  - eexists. split; [reflexivity|reflexivity].
  - apply find_absent. intros r Hr. apply String.eqb_neq. apply Hfresh, Hr.
  - simpl. apply String.eqb_refl. }
destruct Hget as (x & Hx & Hg).
unfold delete_expense. rewrite Hx, Hg.
assert (Hdb1 : with_expenses db'
                 (filter (fun r => negb (String.eqb (e_id r) expense_id))
                         (expenses db'))
               = with_balances (with_expense_splits db (expense_splits db'))
                               (balances db')).
{ rewrite Hd. subst db2.
  cbn [expenses expense_splits balances with_balances with_expense_splits
       with_expenses].
  rewrite filter_app, filter_all.
  - simpl. rewrite String.eqb_refl. simpl. rewrite app_nil_r.
    unfold with_expenses, with_balances, with_expense_splits. cbn.
    reflexivity.
  - intros r Hr. apply negb_true_iff, String.eqb_neq. apply Hfresh, Hr. }
rewrite Hdb1.
(* recalculation starts by clearing, so the balances of the addition are gone *)
assert (Hrec : recalculate_group_balances
                 (with_balances (with_expense_splits db (expense_splits db'))
                                (balances db')) g
               = recalculate_group_balances
                   (with_expense_splits db (expense_splits db')) g).
{ unfold recalculate_group_balances.
  change (GroupService.get_group
            (with_balances (with_expense_splits db (expense_splits db'))
                           (balances db')) g)
    with (GroupService.get_group db g).
  change (GroupService.get_group (with_expense_splits db (expense_splits db')) g)
    with (GroupService.get_group db g).
  rewrite Hgrp.
  assert (Hc : clear_group_balances
                 (with_balances (with_expense_splits db (expense_splits db'))
                                (balances db')) g
               = clear_group_balances
                   (with_expense_splits db (expense_splits db')) g).
  { unfold clear_group_balances. cbn [balances with_balances with_expense_splits].
    rewrite Hf. subst db2. reflexivity. }
  rewrite Hc. reflexivity. }
rewrite Hrec.
rewrite (W_recalculate (expense_splits db') db g).
- destruct (recalculate_group_balances db g) as [d3 [u|e]]; cbn [fst snd].
  + split; [reflexivity|]. destruct u. split; reflexivity.
  + split; [reflexivity|]. split; discriminate.
- intros r Hr. unfold splits_of. rewrite Hd. subst db2.
  cbn [expense_splits with_balances with_expense_splits with_expenses].
  rewrite filter_app.
  rewrite (filter_absent _ news); [rewrite app_nil_r; reflexivity|].
  intros s Hs. subst news. apply in_map_iff in Hs. destruct Hs as (c & <- & _).
  simpl. apply String.eqb_neq. intro E. apply (Hfresh r Hr). congruence.
Qed.

Lemma add_then_delete_is_recalculate_witness :
  fst (delete_expense Scenario.after_dinner Scenario.e1)
  = with_expense_splits
      (fst (recalculate_group_balances Scenario.start Scenario.pair))
      (expense_splits Scenario.after_dinner)
  /\ (snd (delete_expense Scenario.after_dinner Scenario.e1) = Ok true
      <-> snd (recalculate_group_balances Scenario.start Scenario.pair) = Ok tt).
Proof.
apply (add_then_delete_is_recalculate Scenario.start Scenario.e1 1
         Scenario.dinner Scenario.after_dinner
         (mk_add_expense_result
            (get_expense Scenario.after_dinner Scenario.e1)
            (get_group_balances Scenario.after_dinner Scenario.pair))).
- vm_compute. reflexivity.
- intros r [].
- intros s [].
Defined.

End AddThenDeleteTheorem.

(** ** What the simplifier emits *)

Section SimplifiedOutput.
Import BalanceService Design.


Lemma lowered_list_keys (k : string) (v : Q) (l' : list (string * Q)) :
  let l1 := if v <? cent then l' else (k, v) :: l' in
  (forall u, In u (map fst l1) -> In u (map fst ((k, v) :: l')))
  /\ (Forall (fun p => cent <= snd p) l' -> Forall (fun p => cent <= snd p) l1)
  /\ (List.length l1 <= S (List.length l'))%nat
  /\ (v == 0 -> List.length l1 = List.length l').
Proof.
cbv zeta. destruct (Qltb_spec v cent) as [Hlt|Hge].
- repeat split; auto; simpl; auto.
- repeat split; auto.
  + intro H. constructor; [simpl; apply Qnot_lt_le; exact Hge|exact H].
  + intro Hz. exfalso. apply Hge. rewrite Hz. reflexivity.
Qed.


(** The loop emits fewer transactions than it was given debtors and
    creditors. *)
Lemma settle_loop_count (g : string) (fuel : nat) :
  forall ds cs out,
    settle_loop g fuel ds cs = Some out ->
    out = [] \/ (List.length out + 1 <= List.length ds + List.length cs)%nat.
Proof.
induction fuel as [|fuel IH]; intros ds cs out H.
- destruct ds as [|[d debt] ds']; [|destruct cs as [|[c credit] cs']];
    simpl in H; try discriminate; inversion H; auto.
- destruct ds as [|[debtor debt] ds']; [inversion H; auto|].
  destruct cs as [|[creditor credit] cs']; [inversion H; auto|].
  simpl in H.
  destruct (settle_loop g fuel _ _) as [out'|] eqn:E; [|discriminate].
  simpl in H. inversion H; subst. clear H. right.
  destruct (lowered_list_keys debtor (debt - Qmin debt credit) ds')
    as (_ & _ & Ld & Zd).
  destruct (lowered_list_keys creditor (credit - Qmin debt credit) cs')
    as (_ & _ & Lc & Zc).
  cbv zeta in *.
  match type of E with
  | settle_loop _ _ ?a ?b = _ => set (ds1 := a) in *; set (cs1 := b) in *
  end.
  assert (Hdrop : (List.length ds1 + List.length cs1
                   <= List.length ds' + List.length cs' + 1)%nat).
  { destruct (Q.min_spec debt credit) as [[_ M]|[_ M]].
    - rewrite Zd by lra. lia.
    - rewrite Zc by lra. lia. }
  destruct (IH _ _ _ E) as [->|Hlen]; simpl in *; lia.
Qed.



Lemma insert_desc_length (x : string * Q) (l : list (string * Q)) :
  List.length (insert_desc x l) = S (List.length l).
Proof.
induction l as [|z l IH]; simpl; [reflexivity|].
destruct (snd z <=? snd x); simpl; [reflexivity|]. rewrite IH. reflexivity.
Qed.

Lemma sort_desc_length (l : list (string * Q)) :
  List.length (sort_desc l) = List.length l.
Proof.
induction l as [|x l IH]; simpl; [reflexivity|].
rewrite insert_desc_length, IH. reflexivity.
Qed.



Lemma disjoint_filters_length {A : Type} (p q : A -> bool) (l : list A) :
  (forall x, p x = true -> q x = false) ->
  (List.length (filter p l) + List.length (filter q l) <= List.length l)%nat.
Proof.
intro H. induction l as [|x l IH]; simpl; [lia|].
destruct (p x) eqn:Ep.
- rewrite (H x Ep). simpl. lia.
- destruct (q x); simpl; lia.
Qed.

(** X15.  When [get_simplified_balances] emits any transaction, it emits
    fewer transactions than there are users in its net dict, that is, than
    users who appear in a reported balance of the group. *)
Theorem simplified_transactions_are_fewer_than_users
        (db : DB) (g : string) (out : list balance) :
  get_simplified_balances db g = Some out ->
  out <> [] ->
  (List.length out < List.length (build_net (get_group_balances db g)))%nat
  /\ NoDup (map fst (build_net (get_group_balances db g))).
Proof.
unfold get_simplified_balances. intros H Hne.
destruct (build_net_spec _ (get_group_balances_whole db g)) as (Hnd & _).
split; [|exact Hnd].
destruct (settle_loop_count g _ _ _ _ H) as [E|Hlen]; [contradiction|].
rewrite !sort_desc_length in Hlen.
unfold debtors_of in Hlen. rewrite length_map in Hlen.
pose proof (disjoint_filters_length
              (fun p : string * Q => snd p <? - cent)
              (fun p : string * Q => cent <? snd p)
              (build_net (get_group_balances db g))) as Hd.
unfold creditors_of in Hlen.
assert (Hdis : forall x : string * Q,
          (snd x <? - cent) = true -> (cent <? snd x) = false).
{ intros x Hx. apply Qltb_lt in Hx. apply Qltb_ge.
  assert (0 < cent) by reflexivity. lra. }
specialize (Hd Hdis). lia.
Qed.

Lemma simplified_transactions_are_fewer_than_users_witness :
  (List.length
     [mk_balance Scenario.trio Scenario.carol Scenario.alice (5000 # 100);
      mk_balance Scenario.trio Scenario.bob Scenario.alice (1000 # 100)]
   < List.length (build_net (get_group_balances Scenario.after_cabin_and_fuel
                               Scenario.trio)))%nat
  /\ NoDup (map fst (build_net (get_group_balances Scenario.after_cabin_and_fuel
                                  Scenario.trio))).
Proof.
apply simplified_transactions_are_fewer_than_users.
- vm_compute. reflexivity.
- discriminate.
Defined.

End SimplifiedOutput.

(** ** Membership checks and the cross-group view *)

Section Membership.
Import BalanceService Ledger BalanceQueries.

Lemma is_member_in_members (db : DB) (g u : string) :
  GroupService.is_member db g u = true
  <-> In u (map snd (filter (fun m => String.eqb (fst m) g) (group_members db))).
Proof.
unfold GroupService.is_member. rewrite existsb_exists, in_map_iff. split.
- intros ([g' u'] & Hin & Hc). apply andb_true_iff in Hc. destruct Hc as [Hg Hu].
  apply String.eqb_eq in Hu. simpl in Hu. subst u'.
  exists (g', u). split; [reflexivity|]. apply filter_In. auto.
- intros ([g' u'] & Hu & Hin). simpl in Hu. subst u'.
  apply filter_In in Hin. destruct Hin as [Hin Hg].
  exists (g', u). split; [exact Hin|]. simpl in *. rewrite Hg.
  apply String.eqb_refl.
Qed.

(** X16.  [validate_group_members] accepts exactly when the group exists
    and every given user is in the member list that [get_group] returns, so
    the check of the participants agrees with the check of the payer; the
    users it reports are given users that are not in that list, and all the
    given users when the group does not exist. *)
Theorem validate_group_members_agrees_with_get_group
        (db : DB) (g : string) (user_ids : list string) :
  (fst (GroupService.validate_group_members db g user_ids) = true
   <-> exists members,
         GroupService.get_group db g = Some members
         /\ forall u, In u user_ids -> In u members)
  /\ (GroupService.get_group db g = None ->
      GroupService.validate_group_members db g user_ids = (false, user_ids))
  /\ (forall members u,
        GroupService.get_group db g = Some members ->
        (In u (snd (GroupService.validate_group_members db g user_ids))
         <-> In u user_ids /\ ~ In u members)).
Proof.
unfold GroupService.validate_group_members.
destruct (GroupService.get_group db g) as [members|] eqn:Hg.
- assert (Hm : members
               = map snd (filter (fun m => String.eqb (fst m) g) (group_members db))).
  { unfold GroupService.get_group in Hg.
    destruct (existsb _ _); [|discriminate]. inversion Hg. reflexivity. }
  assert (Hin : forall u,
            In u (filter (fun u => negb (GroupService.is_member db g u)) user_ids)
            <-> In u user_ids /\ ~ In u members).
  { intro u. rewrite filter_In, negb_true_iff, Hm, <- is_member_in_members.
    destruct (GroupService.is_member db g u); intuition congruence. }
  split; [|split].
  + cbn [fst]. split.
    * intro H. exists members. split; [reflexivity|].
      intros u Hu.
      destruct (filter _ user_ids) as [|x l] eqn:Ef; [|discriminate].
      destruct (in_dec string_dec u members) as [Hy|Hn]; [exact Hy|].
      exfalso. apply (proj2 (Hin u) (conj Hu Hn)).
    * intros (ms & Hms & Hall). inversion Hms; subst ms.
      destruct (filter _ user_ids) as [|x l] eqn:Ef; [reflexivity|].
      exfalso. destruct (proj1 (Hin x) (or_introl eq_refl)) as [Hx Hn].
      apply Hn, Hall, Hx.
  + discriminate.
  + intros ms u Hms. inversion Hms; subst ms. cbn [snd]. apply Hin.
- split; [|split].
  + cbn [fst]. split; [discriminate|]. intros (ms & Hms & _). discriminate.
  + reflexivity.
  + intros ms u Hms. discriminate.
Qed.

Lemma validate_group_members_agrees_with_get_group_witness :
  fst (GroupService.validate_group_members Scenario.start Scenario.pair
         [Scenario.bob; Scenario.alice]) = true
  /\ (In Scenario.carol
         (snd (GroupService.validate_group_members Scenario.start Scenario.pair
                 [Scenario.bob; Scenario.carol]))
      <-> In Scenario.carol [Scenario.bob; Scenario.carol]
          /\ ~ In Scenario.carol [Scenario.alice; Scenario.bob]).
Proof.
split.
- destruct (validate_group_members_agrees_with_get_group Scenario.start
              Scenario.pair [Scenario.bob; Scenario.alice]) as (H & _).
  apply H. exists [Scenario.alice; Scenario.bob].
  split; [vm_compute; reflexivity|].
  intros u [<-|[<-|[]]]; simpl; auto.
- destruct (validate_group_members_agrees_with_get_group Scenario.start
              Scenario.pair [Scenario.bob; Scenario.carol]) as (_ & _ & H).
  apply H. vm_compute. reflexivity.
Defined.

(** X17.  In a reachable ledger the cross-group view of [get_user_balances]
    is the union of the per-group views: a balance is listed as owed by
    the user exactly when [get_user_balances_in_group] lists it so for some
    group, likewise for balances owed to the user, and no balance is listed
    on both sides. *)
Theorem get_user_balances_is_union_of_groups (db : DB) (u : string) :
  reachable db ->
  (forall b, In b (all_owes (get_user_balances db u))
             <-> exists g, In b (owes (get_user_balances_in_group db g u)))
  /\ (forall b, In b (all_owed (get_user_balances db u))
                <-> exists g, In b (owed (get_user_balances_in_group db g u)))
  /\ (forall b, In b (all_owes (get_user_balances db u)) ->
                ~ In b (all_owed (get_user_balances db u))).
Proof.
intro Hreach. pose proof (reachable_net_reduced db Hreach) as Hnr.
pose proof (net_reduced_all_positive _ Hnr) as Hpos.
assert (Hrow : forall b (side : balance -> string),
          (side = fromUserId \/ side = toUserId) ->
          (In b (filter (fun b => String.eqb (side b) u)
                   (map map_row_to_balance
                      (filter (fun r => String.eqb (from_user_id r) u
                                        || String.eqb (to_user_id r) u)
                              (balances db))))
           <-> exists g, In b (filter (fun b => String.eqb (side b) u)
                                 (get_group_balances db g)))).
{ intros b side Hside. unfold get_group_balances. split.
  - intro H. apply filter_In in H. destruct H as [H Hs].
    apply in_map_iff in H. destruct H as (r & <- & Hr).
    apply filter_In in Hr. destruct Hr as [Hr _].
    exists (group_id r). apply filter_In. split; [|exact Hs].
    apply in_map. apply filter_In. split; [exact Hr|].
    rewrite String.eqb_refl. simpl. apply Qltb_lt. apply Hpos, Hr.
  - intros (g & H). apply filter_In in H. destruct H as [H Hs].
    apply in_map_iff in H. destruct H as (r & <- & Hr).
    apply filter_In in Hr. destruct Hr as [Hr _].
    apply filter_In. split; [|exact Hs].
    apply in_map. apply filter_In. split; [exact Hr|].
    destruct Hside as [-> | ->]; simpl in Hs; rewrite Hs;
      [reflexivity|apply orb_true_r]. }
split; [|split].
- intro b. apply (Hrow b fromUserId). left. reflexivity.
- intro b. apply (Hrow b toUserId). right. reflexivity.
- intros b Hb Hb'.
  apply (proj1 (Hrow b fromUserId (or_introl eq_refl))) in Hb.
  destruct Hb as (g & Hb).
  apply filter_In in Hb. destruct Hb as [Hin Hf].
  cbn [all_owed get_user_balances] in Hb'.
  apply filter_In in Hb'. destruct Hb' as [_ Ht].
  apply String.eqb_eq in Hf. apply String.eqb_eq in Ht.
  apply (reported_balances_distinct db g b Hnr Hin). congruence.
Qed.

Lemma get_user_balances_is_union_of_groups_witness :
  (In (mk_balance Scenario.trio Scenario.carol Scenario.bob (2000 # 100))
      (all_owes (get_user_balances Scenario.after_cabin_and_fuel Scenario.carol))
   <-> exists g,
         In (mk_balance Scenario.trio Scenario.carol Scenario.bob (2000 # 100))
            (owes (get_user_balances_in_group Scenario.after_cabin_and_fuel g
                     Scenario.carol))).
Proof.
assert (Hr : reachable Scenario.after_cabin_and_fuel).
{ apply (reach_step _ (AddExpense Scenario.e2 2 Scenario.bob_for_carol)).
  apply (reach_step _ (AddExpense Scenario.e1 1 Scenario.shared_by_three)).
  apply reach_empty. }
destruct (get_user_balances_is_union_of_groups Scenario.after_cabin_and_fuel
            Scenario.carol Hr) as (H & _).
apply H.
Defined.

End Membership.

(** ** Users, groups and memberships *)

Section DirectoryServices.
Import Directory.

Lemma find_app_one {A : Type} (f : A -> bool) (l : list A) (x : A) :
  find f (l ++ [x])
  = match find f l with
    | Some y => Some y
    | None => if f x then Some x else None
    end.
Proof.
induction l as [|a l IH]; simpl.
- reflexivity.
- destruct (f a); [reflexivity|exact IH].
Qed.

Lemma find_key_none {A : Type} (key : A -> string) (l : list A) (k : string) :
  find (fun r => String.eqb (key r) k) l = None <-> ~ In k (map key l).
Proof.
induction l as [|a l IH]; simpl.
- tauto.
- destruct (String.eqb (key a) k) eqn:E.
  + apply String.eqb_eq in E. split; [discriminate|]. intro H. exfalso. auto.
  + apply String.eqb_neq in E. rewrite IH. tauto.
Qed.

Lemma find_key_some {A : Type} (key : A -> string) (l : list A) (k : string)
      (r : A) :
  find (fun r => String.eqb (key r) k) l = Some r -> key r = k /\ In r l.
Proof.
intro H. apply find_some in H. destruct H as [Hin Hk].
apply String.eqb_eq in Hk. auto.
Qed.

Lemma NoDup_app_one {A : Type} (l : list A) (x : A) :
  NoDup l -> ~ In x l -> NoDup (l ++ [x]).
Proof.
intros Hl Hx. induction Hl as [|a l Ha Hl IH]; simpl.
- constructor; [tauto|constructor].
- constructor.
  + rewrite in_app_iff. simpl. intros [H|[H|[]]]; [tauto|].
    apply Hx. left. auto.
  + apply IH. intro H. apply Hx. right. exact H.
Qed.

Lemma user_exists_In (dir : Dir) (u : string) :
  user_exists dir u = true <-> In u (map u_id (user_table dir)).
Proof.
unfold user_exists.
destruct (find _ (user_table dir)) as [r|] eqn:E.
- apply find_key_some in E. destruct E as [<- Hin].
  split; [intros _; apply in_map; exact Hin|reflexivity].
- apply find_key_none in E. split; [discriminate|tauto].
Qed.

Lemma group_exists_In (dir : Dir) (g : string) :
  group_exists dir g = true <-> In g (map g_id (group_table dir)).
Proof.
unfold group_exists.
destruct (find _ (group_table dir)) as [r|] eqn:E.
- apply find_key_some in E. destruct E as [<- Hin].
  split; [intros _; apply in_map; exact Hin|reflexivity].
- apply find_key_none in E. split; [discriminate|tauto].
Qed.

Lemma bool_false_not_true (b : bool) : b = false <-> ~ b = true.
Proof. destruct b; split; congruence. Qed.

Lemma get_group_exists (dir : Dir) (g : string) :
  group_exists dir g = true <-> get_group dir g <> None.
Proof.
unfold group_exists, get_group.
destruct (find _ (group_table dir)); split; congruence.
Qed.

Lemma stored_member (dir : Dir) (g u : string) :
  existsb (fun m => String.eqb (fst m) g && String.eqb (snd m) u)
          (member_table dir) = true
  <-> In (g, u) (member_table dir).
Proof.
rewrite existsb_exists. split.
- intros ([g' u'] & Hin & Hc). apply andb_true_iff in Hc.
  destruct Hc as [Hg Hu]. apply String.eqb_eq in Hg. apply String.eqb_eq in Hu.
  simpl in *. subst. exact Hin.
- intro Hin. exists (g, u). split; [exact Hin|].
  simpl. rewrite !String.eqb_refl. reflexivity.
Qed.

Lemma members_of_In (ms : list (string * string)) (g u : string) :
  In u (map snd (filter (fun m => String.eqb (fst m) g) ms)) <-> In (g, u) ms.
Proof.
rewrite in_map_iff. split.
- intros ([g' u'] & Hu & Hin). apply filter_In in Hin. destruct Hin as [Hin Hg].
  apply String.eqb_eq in Hg. simpl in *. subst. exact Hin.
- intro Hin. exists (g, u). split; [reflexivity|].
  apply filter_In. split; [exact Hin|]. simpl. apply String.eqb_refl.
Qed.

Lemma members_of_others (ms : list (string * string)) (g g' u : string) :
  g' <> g ->
  filter (fun m => String.eqb (fst m) g') (ms ++ [(g, u)])
  = filter (fun m => String.eqb (fst m) g') ms.
Proof.
intro Hne. rewrite filter_app. simpl.
destruct (String.eqb g g') eqn:E.
- apply String.eqb_eq in E. congruence.
- apply app_nil_r.
Qed.

Lemma members_of_none (ms : list (string * string)) (g : string) :
  (forall u, ~ In (g, u) ms) ->
  filter (fun m => String.eqb (fst m) g) ms = [].
Proof.
intro H. induction ms as [|[g' u'] ms IH]; simpl.
- reflexivity.
- destruct (String.eqb g' g) eqn:E.
  + apply String.eqb_eq in E. subst g'. exfalso. apply (H u'). left. reflexivity.
  + apply IH. intros u Hin. apply (H u). right. exact Hin.
Qed.

(** X18.  Starting from a directory where every membership joins an
    existing user to an existing group and no membership, user id, email or
    group id is stored twice, [create_user], [create_group] and
    [add_member] keep it so, whether they return or raise, provided the uuid
    drawn for a new user or group is not in use. *)
Theorem directory_calls_keep_it_consistent (dir : Dir) (c : call) :
  consistent dir -> fresh dir c -> consistent (perform dir c).
Proof.
intros Hc Hf. pose proof Hc as (Hm & Hnm & Hnu & Hne & Hng).
destruct c as [uid hash now name email|gid now name description creator|gid uid];
cbn [perform fresh] in *.
- unfold create_user.
  destruct (get_user_by_email dir email) as [x|] eqn:Ee; cbn [fst].
  + exact Hc.
  + unfold get_user_by_email in Ee.
    destruct (find _ (user_table dir)) as [r|] eqn:Ef; [discriminate|].
    apply find_key_none in Ef.
    apply bool_false_not_true in Hf. rewrite user_exists_In in Hf.
    split; [|split; [|split; [|split]]]; cbn.
    * intros m Hin. destruct (Hm m Hin) as [Hg Hu]. split; [exact Hg|].
      apply user_exists_In. cbn. rewrite map_app, in_app_iff. left.
      apply user_exists_In. exact Hu.
    * exact Hnm.
    * rewrite map_app. apply NoDup_app_one; assumption.
    * rewrite map_app. apply NoDup_app_one; assumption.
    * exact Hng.
- unfold create_group.
  destruct (user_exists dir creator) eqn:Eu; cbn [negb fst].
  + apply bool_false_not_true in Hf. rewrite group_exists_In in Hf.
    split; [|split; [|split; [|split]]]; cbn.
    * intros m Hin. apply in_app_iff in Hin. destruct Hin as [Hin|[<-|[]]].
      -- destruct (Hm m Hin) as [Hg Hu]. split.
         ++ apply group_exists_In. cbn. rewrite map_app, in_app_iff. left.
            apply group_exists_In. exact Hg.
         ++ exact Hu.
      -- split.
         ++ apply group_exists_In. cbn. rewrite map_app, in_app_iff. right.
            left. reflexivity.
         ++ exact Eu.
    * apply NoDup_app_one; [exact Hnm|].
      intro Hin. apply Hf. apply group_exists_In.
      apply (Hm _ Hin).
    * exact Hnu.
    * exact Hne.
    * rewrite map_app. apply NoDup_app_one; assumption.
  + exact Hc.
- unfold add_member.
  destruct (get_group dir gid) as [grp|] eqn:Eg; cbn [fst];
    [|exact Hc].
  destruct (user_exists dir uid) eqn:Eu; cbn [negb fst];
    [|exact Hc].
  destruct (existsb _ (member_table dir)) eqn:Ex; cbn [fst];
    [exact Hc|].
  apply bool_false_not_true in Ex. rewrite stored_member in Ex.
  split; [|split; [|split; [|split]]]; cbn.
  + intros m Hin. apply in_app_iff in Hin. destruct Hin as [Hin|[<-|[]]].
    * apply (Hm m Hin).
    * split; [|exact Eu]. apply group_exists_In. cbn.
      apply group_exists_In, get_group_exists. congruence.
  + apply NoDup_app_one; assumption.
  + exact Hnu.
  + exact Hne.
  + exact Hng.
Qed.

Lemma empty_directory_consistent : consistent empty_directory.
Proof.
split; [intros m []|]. repeat split; constructor.
Qed.

Lemma directory_calls_keep_it_consistent_witness :
  consistent Office.with_flat.
Proof.
apply (directory_calls_keep_it_consistent Office.with_ben
         (CreateGroup Office.flat 3 Office.flat_name Office.flat_description
                      Office.ann)); [|reflexivity].
apply (directory_calls_keep_it_consistent Office.with_ann
         (CreateUser Office.ben Office.ben_hash 2 Office.ben_name
                     Office.ben_mail)); [|reflexivity].
apply (directory_calls_keep_it_consistent empty_directory
         (CreateUser Office.ann Office.ann_hash 1 Office.ann_name
                     Office.ann_mail)); [|reflexivity].
apply empty_directory_consistent.
Defined.

Lemma ledger_over_get_group (dir : Dir) (db : DB) (g : string) :
  GroupService.get_group (ledger_over dir db) g
  = option_map grp_members (get_group dir g).
Proof.
unfold GroupService.get_group, get_group, ledger_over. cbn.
assert (H : existsb (String.eqb g) (map g_id (group_table dir))
            = match find (fun r => String.eqb (g_id r) g) (group_table dir) with
              | Some _ => true
              | None => false
              end).
{ induction (group_table dir) as [|r l IH]; simpl; [reflexivity|].
  rewrite (String.eqb_sym g (g_id r)).
  destruct (String.eqb (g_id r) g); [reflexivity|exact IH]. }
rewrite H. destruct (find _ (group_table dir)); reflexivity.
Qed.

Lemma with_ben_consistent : consistent Office.with_ben.
Proof.
split; [intros m []|].
split; [constructor|].
split; [|split].
- repeat constructor; simpl; intuition discriminate.
- repeat constructor; simpl; intuition discriminate.
- constructor.
Qed.

(** X19.  When [add_member] returns, the user is a member of the group,
    [validate_group_members] accepts the user, and a second call returns
    False and writes nothing; it returns False only when it wrote nothing,
    and True only when the user was not a member and now comes last in the
    member list, the other groups being as before.  When it raises, nothing is
    written and the group or the user does not exist. *)
Theorem add_member_joins_once (dir : Dir) (g u : string) :
  (forall dir1 b,
     add_member dir g u = (dir1, Returned b) ->
     (exists grp, get_group dir1 g = Some grp /\ In u (grp_members grp))
     /\ (forall db,
           fst (GroupService.validate_group_members (ledger_over dir1 db) g [u])
           = true)
     /\ add_member dir1 g u = (dir1, Returned false)
     /\ (b = false -> dir1 = dir)
     /\ (b = true ->
         exists grp,
           get_group dir g = Some grp
           /\ ~ In u (grp_members grp)
           /\ get_group dir1 g
              = Some (mk_group (grp_id grp) (grp_name grp) (grp_description grp)
                               (grp_members grp ++ [u])
                               (grp_createdBy grp) (grp_createdAt grp)))
     /\ (forall g', g' <> g -> get_group dir1 g' = get_group dir g'))
  /\ (forall dir1 e,
        add_member dir g u = (dir1, Raised e) ->
        dir1 = dir /\ (get_group dir g = None \/ user_exists dir u = false)).
Proof.
assert (Hval : forall d db,
          get_group d g <> None ->
          In (g, u) (member_table d) ->
          fst (GroupService.validate_group_members (ledger_over d db) g [u])
          = true).
{ intros d db Hg Hin. unfold GroupService.validate_group_members.
  rewrite ledger_over_get_group.
  destruct (get_group d g) as [grp|]; [|congruence]. cbn [option_map].
  assert (Hm : GroupService.is_member (ledger_over d db) g u = true).
  { unfold GroupService.is_member, ledger_over. cbn.
    apply stored_member. exact Hin. }
  cbn [filter]. rewrite Hm. reflexivity. }
unfold add_member.
destruct (get_group dir g) as [grp|] eqn:Eg.
2:{ split; [intros dir1 b H; discriminate|].
    intros dir1 e H. inversion H. auto. }
destruct (user_exists dir u) eqn:Eu; cbn [negb].
2:{ split; [intros dir1 b H; discriminate|].
    intros dir1 e H. inversion H. auto. }
destruct (existsb _ (member_table dir)) eqn:Ex.
- split; [|intros dir1 e H; discriminate].
  intros dir1 b H. inversion H. subst dir1 b. clear H.
  pose proof (proj1 (stored_member dir g u) Ex) as Hin.
  split; [|split; [|split; [|split; [|split]]]].
  + exists grp. split; [exact Eg|].
    unfold get_group in Eg. destruct (find _ (group_table dir)); [|discriminate].
    inversion Eg. cbn. apply members_of_In. exact Hin.
  + intro db. apply Hval; [congruence|exact Hin].
  + rewrite Eg, Eu, Ex. reflexivity.
  + reflexivity.
  + discriminate.
  + reflexivity.
- split; [|intros dir1 e H; discriminate].
  intros dir1 b H. inversion H. subst b. clear H.
  set (d1 := mk_Dir (user_table dir) (group_table dir)
                    (member_table dir ++ [(g, u)])) in *.
  subst dir1.
  assert (Hnin : ~ In (g, u) (member_table dir)).
  { rewrite <- stored_member. congruence. }
  assert (Hin1 : In (g, u) (member_table d1)).
  { cbn. apply in_app_iff. right. left. reflexivity. }
  assert (Hg1 : get_group d1 g
                = Some (mk_group (grp_id grp) (grp_name grp)
                                 (grp_description grp) (grp_members grp ++ [u])
                                 (grp_createdBy grp) (grp_createdAt grp))).
  { unfold get_group in *. cbn [group_table member_table d1].
    destruct (find _ (group_table dir)) as [row|]; [|discriminate].
    inversion Eg. cbn. rewrite filter_app, map_app. cbn.
    rewrite String.eqb_refl. reflexivity. }
  split; [|split; [|split; [|split; [|split]]]].
  + eexists. split; [exact Hg1|]. cbn. apply in_app_iff. right. left. reflexivity.
  + intro db. apply Hval; [congruence|exact Hin1].
  + rewrite Hg1.
    change (user_exists d1 u) with (user_exists dir u). rewrite Eu. cbn [negb].
    rewrite (proj2 (stored_member d1 g u) Hin1). reflexivity.
  + discriminate.
  + intros _. exists grp. split; [reflexivity|]. split; [|exact Hg1].
    unfold get_group in Eg. destruct (find _ (group_table dir)); [|discriminate].
    inversion Eg. cbn. rewrite members_of_In. exact Hnin.
  + intros g' Hne. unfold get_group. cbn [group_table member_table d1].
    rewrite members_of_others by exact Hne. reflexivity.
Qed.

Lemma add_member_joins_once_witness :
  add_member (fst (add_member Office.with_flat Office.flat Office.ben))
             Office.flat Office.ben
  = (fst (add_member Office.with_flat Office.flat Office.ben), Returned false).
Proof.
destruct (add_member_joins_once Office.with_flat Office.flat Office.ben)
  as [H _].
destruct (H (fst (add_member Office.with_flat Office.flat Office.ben)) true)
  as (_ & _ & Hagain & _).
- vm_compute. reflexivity.
- exact Hagain.
Defined.

(** X20.  [create_group] raises and writes nothing when the creator is not
    a user.  Otherwise, in a consistent directory and with an unused uuid, it
    returns the new group with the creator as its only member, leaves the
    other groups and the users as they were, and [add_member] of the
    creator then returns False. *)
Theorem create_group_starts_with_its_creator
        (dir : Dir) (gid : string) (now : nat)
        (name description creator : string) :
  (user_exists dir creator = false ->
   create_group dir gid now name description creator
   = (dir, Raised Creator_user_does_not_exist))
  /\ (consistent dir ->
      group_exists dir gid = false ->
      user_exists dir creator = true ->
      let dir1 := fst (create_group dir gid now name description creator) in
      let created := mk_group gid name description [creator] creator now in
      snd (create_group dir gid now name description creator)
      = Returned (Some created)
      /\ (forall g, g <> gid -> get_group dir1 g = get_group dir g)
      /\ (forall u, get_user dir1 u = get_user dir u)
      /\ add_member dir1 gid creator = (dir1, Returned false)).
Proof.
unfold create_group. split.
- intros ->. reflexivity.
- intros (Hm & _) Hf Hu. rewrite Hu. cbn [negb fst snd].
  set (d1 := mk_Dir _ _ _).
  assert (Hnone : find (fun r => String.eqb (g_id r) gid) (group_table dir)
                  = None).
  { unfold group_exists in Hf. destruct (find _ (group_table dir)); congruence. }
  assert (Hstale : forall u, ~ In (gid, u) (member_table dir)).
  { intros u Hin. destruct (Hm _ Hin) as [Hg _]. cbn in Hg. congruence. }
  assert (Hg1 : get_group d1 gid
                = Some (mk_group gid name description [creator] creator now)).
  { unfold get_group. cbn [group_table member_table d1].
    rewrite find_app_one, Hnone. cbn [g_id]. rewrite String.eqb_refl.
    rewrite filter_app, (members_of_none _ _ Hstale). cbn.
    rewrite String.eqb_refl. reflexivity. }
  split; [|split; [|split]].
  + rewrite Hg1. reflexivity.
  + intros g Hne. unfold get_group. cbn [group_table member_table d1].
    rewrite find_app_one, (members_of_others _ _ _ _ Hne). cbn [g_id].
    destruct (find (fun r => String.eqb (g_id r) g) (group_table dir));
      [reflexivity|].
    destruct (String.eqb gid g) eqn:E; [|reflexivity].
    apply String.eqb_eq in E. congruence.
  + intro u. reflexivity.
  + unfold add_member. rewrite Hg1.
    change (user_exists d1 creator) with (user_exists dir creator).
    rewrite Hu. cbn [negb].
    rewrite (proj2 (stored_member d1 gid creator)); [reflexivity|].
    cbn. apply in_app_iff. right. left. reflexivity.
Qed.

Lemma create_group_starts_with_its_creator_witness :
  snd (create_group Office.with_ben Office.flat 3 Office.flat_name
         Office.flat_description Office.ann)
  = Returned (Some (mk_group Office.flat Office.flat_name
                             Office.flat_description [Office.ann]
                             Office.ann 3)).
Proof.
destruct (create_group_starts_with_its_creator Office.with_ben Office.flat 3
            Office.flat_name Office.flat_description Office.ann) as [_ H].
destruct (H with_ben_consistent eq_refl eq_refl) as (Hc & _).
exact Hc.
Defined.

(** X21.  [create_user] raises and writes nothing when the email is already
    registered.  Otherwise, with an unused uuid, it returns the new user,
    who can then be found by email, [verify_password] returns that user
    exactly for the passwords that [checkpw] accepts against the stored
    hash, the users with another id or another email are found and verified
    as before, and registering the same email again raises. *)
Theorem create_user_registers_an_email_once
        (checkpw : string -> string -> bool) (dir : Dir)
        (uid hash : string) (now : nat) (name email : string) :
  (get_user_by_email dir email <> None ->
   create_user dir uid hash now name email = (dir, Raised Email_already_exists))
  /\ (user_exists dir uid = false ->
      get_user_by_email dir email = None ->
      let dir1 := fst (create_user dir uid hash now name email) in
      let created := mk_user uid name email now in
      snd (create_user dir uid hash now name email) = Returned (Some created)
      /\ get_user_by_email dir1 email = Some created
      /\ (forall password,
            verify_password checkpw dir1 email password
            = if checkpw password hash then Some created else None)
      /\ (forall u, u <> uid -> get_user dir1 u = get_user dir u)
      /\ (forall e password,
            e <> email ->
            get_user_by_email dir1 e = get_user_by_email dir e
            /\ verify_password checkpw dir1 e password
               = verify_password checkpw dir e password)
      /\ (forall uid2 hash2 now2 name2,
            create_user dir1 uid2 hash2 now2 name2 email
            = (dir1, Raised Email_already_exists))).
Proof.
unfold create_user. split.
- intro H. destruct (get_user_by_email dir email); [reflexivity|congruence].
- intros Hu He. rewrite He. cbn [fst snd].
  set (d1 := mk_Dir _ _ _).
  assert (Hid : find (fun r => String.eqb (u_id r) uid) (user_table dir) = None).
  { unfold user_exists in Hu. destruct (find _ (user_table dir)); congruence. }
  assert (Hem : find (fun r => String.eqb (u_email r) email) (user_table dir)
                = None).
  { unfold get_user_by_email in He.
    destruct (find _ (user_table dir)); [discriminate|reflexivity]. }
  assert (Hfe : find (fun r => String.eqb (u_email r) email) (user_table d1)
                = Some (mk_user_row uid name email hash now)).
  { cbn [user_table d1]. rewrite find_app_one, Hem. cbn [u_email].
    rewrite String.eqb_refl. reflexivity. }
  assert (Hge : get_user_by_email d1 email
                = Some (mk_user uid name email now)).
  { unfold get_user_by_email. rewrite Hfe. reflexivity. }
  split; [|split; [|split; [|split; [|split]]]].
  + unfold get_user. cbn [user_table d1]. rewrite find_app_one, Hid.
    cbn [u_id]. rewrite String.eqb_refl. reflexivity.
  + exact Hge.
  + intro password. unfold verify_password. rewrite Hfe. reflexivity.
  + intros u Hne. unfold get_user. cbn [user_table d1].
    rewrite find_app_one. cbn [u_id].
    destruct (find (fun r => String.eqb (u_id r) u) (user_table dir));
      [reflexivity|].
    destruct (String.eqb uid u) eqn:E; [|reflexivity].
    apply String.eqb_eq in E. congruence.
  + intros e password Hne.
    assert (Hf : find (fun r => String.eqb (u_email r) e) (user_table d1)
                 = find (fun r => String.eqb (u_email r) e) (user_table dir)).
    { cbn [user_table d1]. rewrite find_app_one. cbn [u_email].
      destruct (find (fun r => String.eqb (u_email r) e) (user_table dir));
        [reflexivity|].
      destruct (String.eqb email e) eqn:E; [|reflexivity].
      apply String.eqb_eq in E. congruence. }
    unfold get_user_by_email, verify_password. rewrite Hf. auto.
  + intros uid2 hash2 now2 name2. rewrite Hge. reflexivity.
Qed.

Lemma create_user_registers_an_email_once_witness :
  verify_password Office.checkpw
    (fst (create_user Office.with_ann Office.ben Office.ben_hash 2
            Office.ben_name Office.ben_mail))
    Office.ben_mail Office.ben
  = if Office.checkpw Office.ben Office.ben_hash
    then Some (mk_user Office.ben Office.ben_name Office.ben_mail 2)
    else None.
Proof.
destruct (create_user_registers_an_email_once Office.checkpw Office.with_ann
            Office.ben Office.ben_hash 2 Office.ben_name Office.ben_mail)
  as [_ H].
destruct (H eq_refl eq_refl) as (_ & _ & Hv & _).
apply Hv.
Defined.

End DirectoryServices.
